(** * Carrefour ingredient-search agent: turn processing and search helpers

    A shallow embedding of [main.py] (the turn orchestrator
    [process_message] with its nested [_extract_json_array]) and of
    [search_handler.py] ([google_search], [_parse_menu_items],
    [_serper_image_search], [serper_first_link]), followed by the
    properties the specification states about them.

    Python [str] values are sequences of Unicode code points; values that
    come out of [json.loads] are a tagged union; code that may raise runs
    in an exception monad, and the turn orchestrator additionally threads
    the log of externally visible calls and the conversation store. *)

From Stdlib Require Import ZArith NArith Lia Bool List Ascii String.
From stdpp Require Import base option list gmap.

Set Warnings "-register-all".
Local Open Scope N_scope.

(** ** Python strings *)

(** A [str] is its sequence of code points. *)
Abbreviation str := (list N).

Module Utf8.
(** Source literals are written as UTF-8 byte strings and decoded once. *)

Definition cont (b : N) : N := N.land b 63.

Fixpoint decode (bs : list N) : str :=
  match bs with
  | [] => []
  | b0 :: r0 =>
    if b0 <? 128 then b0 :: decode r0
    else if b0 <? 224 then
      match r0 with
      | b1 :: r1 => (N.land b0 31 * 64 + cont b1) :: decode r1
      | _ => [b0]
      end
    else if b0 <? 240 then
      match r0 with
      | b1 :: b2 :: r2 =>
        (N.land b0 15 * 4096 + cont b1 * 64 + cont b2) :: decode r2
      | _ => [b0]
      end
    else
      match r0 with
      | b1 :: b2 :: b3 :: r3 =>
        (N.land b0 7 * 262144 + cont b1 * 4096 + cont b2 * 64 + cont b3)
          :: decode r3
      | _ => [b0]
      end
  end.

Fixpoint bytes (s : string) : list N :=
  match s with
  | EmptyString => []
  | String a r => N_of_ascii a :: bytes r
  end.
End Utf8.

(** [u "..."] is the Python literal ["..."]. *)
Definition u (s : string) : str := Utf8.decode (Utf8.bytes s).

(** The escape [\n] of the Python literals. *)
Definition NL : N := 10.

Definition str_eqb (a b : str) : bool := bool_decide (a = b).

(** [len(x)] of a string or of a list *)
Definition len {A} (x : list A) : nat := length x.

(** *** Character classes of the interpreter *)

(** [Py_UNICODE_ISSPACE]: what [str.strip], [str.isspace] and the regex
    class [\s] of a [str] pattern treat as whitespace. *)
Definition is_space (c : N) : bool :=
  ((9 <=? c) && (c <=? 13)) || ((28 <=? c) && (c <=? 32))
  || (c =? 133) || (c =? 160) || (c =? 5760)
  || ((8192 <=? c) && (c <=? 8202))
  || (c =? 8232) || (c =? 8233) || (c =? 8239) || (c =? 8287) || (c =? 12288).

(** [Py_UNICODE_ISLINEBREAK]: the boundaries of [str.splitlines]. *)
Definition is_linebreak (c : N) : bool :=
  ((10 <=? c) && (c <=? 13)) || ((28 <=? c) && (c <=? 30))
  || (c =? 133) || (c =? 8232) || (c =? 8233).

Definition is_ascii (c : N) : bool := c <? 128.
Definition is_ascii_upper (c : N) : bool := (65 <=? c) && (c <=? 90).
Definition is_ascii_lower (c : N) : bool := (97 <=? c) && (c <=? 122).
(** The regex class [[a-zA-Z]]. *)
Definition is_ascii_letter (c : N) : bool := is_ascii_upper c || is_ascii_lower c.
Definition is_ascii_digit (c : N) : bool := (48 <=? c) && (c <=? 57).

(** *** [str.strip()] *)

Fixpoint lstrip (s : str) : str :=
  match s with
  | c :: r => if is_space c then lstrip r else s
  | [] => []
  end.

Definition rstrip (s : str) : str := rev (lstrip (rev s)).

Definition strip (s : str) : str := rstrip (lstrip s).

(** *** [str.startswith], [in], [str.join] *)

Fixpoint startswith (s p : str) : bool :=
  match p, s with
  | [], _ => true
  | a :: p', b :: s' => (a =? b) && startswith s' p'
  | _ :: _, [] => false
  end.

(** [needle in hay] for two strings. *)
Fixpoint contains (hay needle : str) : bool :=
  startswith hay needle ||
  match hay with
  | [] => false
  | _ :: r => contains r needle
  end.

(** [sep.join(parts)] *)
Fixpoint join (sep : str) (parts : list str) : str :=
  match parts with
  | [] => []
  | [p] => p
  | p :: r => p ++ sep ++ join sep r
  end.

(** *** Decimal rendering of a length, as an f-string does it *)

Definition digit_char (d : N) : N := 48 + d.

Fixpoint str_of_pos_fuel (fuel : nat) (n : N) (acc : str) : str :=
  match fuel with
  | O => acc
  | S f =>
    let acc' := digit_char (n mod 10) :: acc in
    if n <? 10 then acc' else str_of_pos_fuel f (n / 10) acc'
  end.

Definition str_of_N (n : N) : str := str_of_pos_fuel (S (N.to_nat (N.log2 n))) n [].

Definition str_of_nat (n : nat) : str := str_of_N (N.of_nat n).

Definition str_of_Z (z : Z) : str :=
  if (z <? 0)%Z then 45 :: str_of_N (Z.to_N (- z)) else str_of_N (Z.to_N z).

(** *** [str.splitlines()] *)

(** A line ends at a line boundary, [\r\n] counts as one boundary, and a
    final boundary opens no further line.  [cur] is the line being read,
    reversed. *)
Fixpoint splitlines_from (s : str) (cur : str) : list str :=
  match s with
  | [] => match cur with [] => [] | _ => [rev cur] end
  | c :: r =>
    if is_linebreak c then
      rev cur ::
        match r with
        | d :: r' => if (c =? 13) && (d =? 10) then splitlines_from r' []
                     else splitlines_from r []
        | [] => splitlines_from r []
        end
    else splitlines_from r (c :: cur)
  end.

Definition splitlines (s : str) : list str := splitlines_from s [].

(** ** Regular expressions

    The patterns of the two modules are sequences of character classes,
    each taken once, optionally, or repeated greedily.  [match_here]
    follows the backtracking order of [re]: a greedy item first tries to
    take one more character and falls back to the rest of the pattern. *)

Inductive quant := One | Opt | Star.

Definition regex := list ((N -> bool) * quant).

(** [c+] is [c] followed by [c*]. *)
Definition plus (c : N -> bool) : regex := [(c, One); (c, Star)].

(** The text left after the first match of [p] at the head of the input. *)
Fixpoint match_here (p : regex) : str -> option str :=
  match p with
  | [] => fun s => Some s
  | (c, q) :: p' =>
    let k := match_here p' in
    match q with
    | One => fun s =>
        match s with
        | x :: s' => if c x then k s' else None
        | [] => None
        end
    | Opt => fun s =>
        match s with
        | x :: s' =>
          if c x then match k s' with Some r => Some r | None => k s end
          else k s
        | [] => k s
        end
    | Star =>
        fix star (s : str) : option str :=
          match s with
          | x :: s' =>
            if c x then match star s' with Some r => Some r | None => k s end
            else k s
          | [] => k s
          end
    end
  end.

(** [re.search(p, s)]: the leftmost match, as the matched text. *)
Fixpoint re_search (p : regex) (s : str) : option str :=
  match match_here p s with
  | Some rest => Some (take (length s - length rest) s)
  | None =>
    match s with
    | [] => None
    | _ :: s' => re_search p s'
    end
  end.

(** [re.sub(p, '', s)]: every non-overlapping match, leftmost first, is
    removed.  [skip] counts the characters of the current match still to
    be dropped. *)
Fixpoint re_sub_from (p : regex) (s : str) (skip : nat) : str :=
  match s with
  | [] => []
  | x :: s' =>
    match skip with
    | S k => re_sub_from p s' k
    | O =>
      match match_here p s with
      | Some rest =>
        match (length s - length rest)%nat with
        | O => x :: re_sub_from p s' 0
        | S k => re_sub_from p s' k
        end
      | None => x :: re_sub_from p s' 0
      end
    end
  end.

Definition re_sub_empty (p : regex) (s : str) : str := re_sub_from p s 0.

Definition chr (c : N) : N -> bool := fun x => x =? c.
Definition any_char : N -> bool := fun _ => true.

(** ** Values, exceptions and the interpreter's library *)

(** A Python [float]: a finite binary value [m * 2^e], an infinity or NaN
    ([json.loads] accepts [Infinity] and [NaN]). *)
Inductive pyfloat :=
| FFinite (m e : Z)
| FInf (negative : bool)
| FNaN.

(** What [json.loads] returns, and what is passed as a JSON payload. *)
Inductive pyval :=
| PNone
| PBool (b : bool)
| PInt (n : Z)
| PFloat (f : pyfloat)
| PStr (s : str)
| PList (l : list pyval)
| PDict (d : list (str * pyval)).

(** Truth value, as [if v], [not v] and [a or b] take it. *)
Definition truthy (v : pyval) : bool :=
  match v with
  | PNone => false
  | PBool b => b
  | PInt n => negb (n =? 0)%Z
  | PFloat (FFinite m _) => negb (m =? 0)%Z
  | PFloat _ => true
  | PStr s => match s with [] => false | _ => true end
  | PList l => match l with [] => false | _ => true end
  | PDict d => match d with [] => false | _ => true end
  end.

(** [a or b] *)
Definition py_or (a b : pyval) : pyval := if truthy a then a else b.

Definition type_name (v : pyval) : str :=
  match v with
  | PNone => u "NoneType"
  | PBool _ => u "bool"
  | PInt _ => u "int"
  | PFloat _ => u "float"
  | PStr _ => u "str"
  | PList _ => u "list"
  | PDict _ => u "dict"
  end.

(** [d.get(k)] on the entries of a dict: [None] when the key is absent. *)
Fixpoint assoc (d : list (str * pyval)) (k : str) : option pyval :=
  match d with
  | [] => None
  | (k', v) :: r => if str_eqb k' k then Some v else assoc r k
  end.

(** The exception classes that occur; every one derives from [Exception]. *)
Inductive exn_class :=
| ValueError | TypeError | AttributeError | KeyError | IndexError
| JSONDecodeError | RequestException | HTTPError | OSError | APIError.

(** An exception and the text [str(e)] gives for it. *)
Record exn := Exn { exn_cls : exn_class; exn_str : str }.

(** The outcome of code that may raise. *)
Inductive Res (A : Type) :=
| Ok (a : A)
| Raise (e : exn).
Arguments Ok {A} a.
Arguments Raise {A} e.

#[global] Instance res_ret : MRet Res := fun A a => Ok a.

#[global] Instance res_bind : MBind Res := fun A B f m =>
  match m with
  | Ok a => f a
  | Raise e => Raise e
  end.

(** [try: m  except Exception as e: h e] *)
Definition try_except {A} (m : Res A) (h : exn -> Res A) : Res A :=
  match m with
  | Ok a => Ok a
  | Raise e => h e
  end.

(** [v.attr] on a value without that attribute. *)
Definition no_attribute {A} (v : pyval) (attr : str) : Res A :=
  Raise (Exn AttributeError
    (u "'" ++ type_name v ++ u "' object has no attribute '" ++ attr ++ u "'")).

(** The parts of the interpreter and of the [lexia] helper the modules
    call and that are taken as given: Unicode tables, the JSON decoder,
    the rendering of a non-string value, and the credential lookup. *)
Class Python := {
  (** [s.lower()] for a string that has a non-ASCII code point *)
  unicode_lower : str -> str;
  (** [Py_UNICODE_ISDECIMAL] on a non-ASCII code point (regex [\d]) *)
  unicode_decimal : N -> bool;
  (** [json.loads(text)] *)
  json_loads : str -> Res pyval;
  (** [str(v)] when [v] is not a [str] *)
  py_repr : pyval -> str;
  (** [Variables(variables).get(name)] *)
  variables_get : list (str * str) -> str -> option str
}.

Section Library.
Context `{Python}.

Definition ascii_lower_char (c : N) : N :=
  if is_ascii_upper c then c + 32 else c.

(** [s.lower()] *)
Definition lower (s : str) : str :=
  if forallb is_ascii s then map ascii_lower_char s else unicode_lower s.

(** The regex class [\d] of a [str] pattern. *)
Definition is_decimal (c : N) : bool :=
  if is_ascii c then is_ascii_digit c else unicode_decimal c.

(** [str(v)], which is also how an f-string renders [v]. *)
Definition py_str (v : pyval) : str :=
  match v with
  | PStr s => s
  | _ => py_repr v
  end.
End Library.

(** *** Dynamic operations on values *)

Definition nl : str := [NL].

(** [v.get(k, default)]: only a dict has the method. *)
Definition dict_get (v : pyval) (k : str) (default : pyval) : Res pyval :=
  match v with
  | PDict d => Ok (match assoc d k with Some x => x | None => default end)
  | _ => no_attribute v (u "get")
  end.

(** [k in v] for a string [k]. *)
Definition py_in (k : str) (v : pyval) : Res bool :=
  match v with
  | PDict d => Ok (bool_decide (is_Some (assoc d k)))
  | PList l => Ok (existsb (fun x => match x with PStr s => str_eqb s k | _ => false end) l)
  | PStr s => Ok (contains s k)
  | _ => Raise (Exn TypeError
           (u "argument of type '" ++ type_name v ++ u "' is not iterable"))
  end.

(** [v[k]] for a string [k]. *)
Definition py_getitem (v : pyval) (k : str) : Res pyval :=
  match v with
  | PDict d =>
    match assoc d k with
    | Some x => Ok x
    | None => Raise (Exn KeyError (u "'" ++ k ++ u "'"))
    end
  | PList _ =>
    Raise (Exn TypeError (u "list indices must be integers or slices, not str"))
  | PStr _ =>
    Raise (Exn TypeError (u "string indices must be integers, not 'str'"))
  | _ => Raise (Exn TypeError (u "'" ++ type_name v ++ u "' object is not subscriptable"))
  end.

(** [l[:n]] on a sequence: a negative [n] counts from the end. *)
Definition slice_to {A} (l : list A) (n : Z) : list A :=
  if (0 <=? n)%Z then take (Z.to_nat n) l
  else take (length l - Z.to_nat (- n)) l.

(** The one-character strings a [str] yields when iterated. *)
Definition chars (s : str) : list pyval := map (fun c => PStr [c]) s.

(** The items [for x in v[:n]] visits. *)
Definition py_slice_items (v : pyval) (n : Z) : Res (list pyval) :=
  match v with
  | PList l => Ok (slice_to l n)
  | PStr s => Ok (chars (slice_to s n))
  | PDict _ => Raise (Exn TypeError (u "unhashable type: 'slice'"))
  | _ => Raise (Exn TypeError (u "'" ++ type_name v ++ u "' object is not subscriptable"))
  end.

(** The items [for x in v] visits. *)
Definition py_iter (v : pyval) : Res (list pyval) :=
  match v with
  | PList l => Ok l
  | PStr s => Ok (chars s)
  | PDict d => Ok (map (fun kv => PStr (fst kv)) d)
  | _ => Raise (Exn TypeError (u "'" ++ type_name v ++ u "' object is not iterable"))
  end.

(** [v[0]] *)
Definition py_first (v : pyval) : Res pyval :=
  match v with
  | PList (x :: _) => Ok x
  | PList [] => Raise (Exn IndexError (u "list index out of range"))
  | PStr (c :: _) => Ok (PStr [c])
  | PStr [] => Raise (Exn IndexError (u "string index out of range"))
  | PDict _ => Raise (Exn KeyError (u "0"))
  | _ => Raise (Exn TypeError (u "'" ++ type_name v ++ u "' object is not subscriptable"))
  end.

(** ** The outside world *)

(** The outcomes of the calls that leave the process.  A call either
    returns or raises; what it does is not decided by the modules. *)
Record World := {
  (** [requests.post(url, headers, json=payload)], [raise_for_status()]
      and [.json()]: the decoded body of a successful response, or the
      failure of the transport, of the status check or of the decoding.
      The API key is the only header that varies. *)
  http_post_json : str -> str -> pyval -> Res pyval;
  (** [client.chat.completions.create(model, messages, max_tokens=300,
      temperature=0)]: the [message.content] of each returned choice. *)
  chat_completions_create : str -> list (str * str) -> Res (list (option str));
  (** [open(path, "w")] and the writes of the lines: the file is replaced
      by the content or the call raises. *)
  write_text_file : str -> str -> Res unit
}.

(** ** search_handler.py *)

Module SearchHandler.
Section SearchHandler.
Context `{Python} (W : World).

Definition SERPER_API_KEY : str := u "SERPER_API_KEY".

Definition missing_serper_key : exn :=
  Exn ValueError (u "Serper API key not found in variables. Please add SERPER_API_KEY to your agent configuration.").

(** [if not api_key]: the key is absent or the empty string. *)
Definition key_present (k : option str) : option str :=
  match k with
  | Some (c :: r) => Some (c :: r)
  | _ => None
  end.

(** One numbered entry of the result list. *)
Definition format_result (i : nat) (result : pyval) : Res str :=
  title ← dict_get result (u "title") (PStr (u "No title"));
  link ← dict_get result (u "link") (PStr []);
  snippet ← dict_get result (u "snippet") (PStr (u "No description available"));
  mret (str_of_nat i ++ u ". **" ++ py_str title ++ u "**" ++ nl
        ++ u "   " ++ py_str snippet ++ nl
        ++ u "   [Link](" ++ py_str link ++ u ")" ++ nl).

(** [for i, result in enumerate(items, i)]: the entries in order, up to
    the first that raises. *)
Fixpoint format_results (i : nat) (items : list pyval) : Res (list str) :=
  match items with
  | [] => mret []
  | result :: rest =>
    line ← format_result i result;
    lines ← format_results (S i) rest;
    mret (line :: lines)
  end.

Definition search_header (query : str) : str :=
  u "🔍 **Search Results for: " ++ query ++ u "**" ++ nl ++ nl.

(** The [try] block of [google_search]. *)
Definition google_search_body (query : str) (num_results : Z)
    (variables : option (list (str * str))) : Res str :=
  match variables with
  | None | Some [] =>
    Raise (Exn ValueError (u "Variables not provided to google_search"))
  | Some vars =>
    match key_present (variables_get vars SERPER_API_KEY) with
    | None => Raise missing_serper_key
    | Some serper_api_key =>
      let payload := PDict [(u "q", PStr query);
                            (u "num", PInt (Z.min num_results 10))] in
      data ← http_post_json W (u "https://google.serper.dev/search")
               serper_api_key payload;
      has_organic ← py_in (u "organic") data;
      results ←
        (if has_organic : bool then
           organic ← py_getitem data (u "organic");
           items ← py_slice_items organic num_results;
           format_results 1 items
         else mret []);
      match results with
      | [] => mret (search_header query ++ u "No results found for your search query.")
      | _ => mret (search_header query ++ join nl results)
      end
    end
  end.

(** The text the handler returns for the exception [e]. *)
Definition search_error (e : exn) : str :=
  let error_msg := u "Error performing Google search: " ++ exn_str e in
  u "❌ **Search Error:** " ++ error_msg.

(** [google_search]: whatever the body raises is rendered as the
    returned text. *)
Definition google_search (query : str) (num_results : Z)
    (variables : option (list (str * str))) : Res str :=
  try_except (google_search_body query num_results variables)
    (fun e => mret (search_error e)).

(** *** [_parse_menu_items] *)

Definition bullet_prefixes : list str :=
  [u "- "; u "* "; u "• "; u "· "; u "•"; u "-"].

(** The loop over the prefixes: each one found at the head of the
    current line is cut off and the rest stripped again. *)
Definition strip_bullets (line : str) : str :=
  fold_left
    (fun line prefix =>
       if startswith line prefix then strip (drop (length prefix) line) else line)
    bullet_prefixes line.

(** [[\$€£¥]] *)
Definition is_currency (c : N) : bool :=
  (c =? 36) || (c =? 8364) || (c =? 163) || (c =? 165).

(** [[\$€£¥]\s*\d+\.?\d*] *)
Definition price_after_symbol : regex :=
  [(is_currency, One); (is_space, Star)] ++ plus is_decimal
    ++ [(chr 46, Opt); (is_decimal, Star)].

(** [\d+\.?\d*\s*[\$€£¥]] *)
Definition price_before_symbol : regex :=
  plus is_decimal
    ++ [(chr 46, Opt); (is_decimal, Star); (is_space, Star); (is_currency, One)].

(** [\$\d+\.?\d*] *)
Definition price_dollar : regex :=
  [(chr 36, One)] ++ plus is_decimal ++ [(chr 46, Opt); (is_decimal, Star)].

(** The three [re.sub] calls that remove price patterns. *)
Definition strip_prices (line : str) : str :=
  re_sub_empty price_dollar
    (re_sub_empty price_before_symbol
       (re_sub_empty price_after_symbol line)).

Definition section_headers : list str :=
  [u "appetizers"; u "entrees"; u "mains"; u "desserts"; u "drinks";
   u "beverages"; u "starters"; u "salads"; u "soups"; u "sides";
   u "specials"; u "menu"; u "price"].

Definition description_words : list str :=
  [u "description"; u "ingredients"; u "served with"; u "comes with";
   u "includes"].

(** [any(w in line.lower() for w in words)] *)
Definition mentions (words : list str) (line : str) : bool :=
  existsb (fun w => contains (lower line) w) words.

(** [[^a-zA-Z\s]] *)
Definition not_letter_or_space : regex :=
  [((fun c => negb (is_ascii_letter c || is_space c)), One)].

(** [len(re.sub(r'[^a-zA-Z\s]', '', line)) < len(line) * 0.5] *)
Definition mostly_symbols (line : str) : bool :=
  (2 * len (re_sub_empty not_letter_or_space line) <? len line)%nat.

(** [not line or len(line) < 2] *)
Definition too_short (line : str) : bool := (len line <? 2)%nat.

(** The line as the filters see it: stripped, without bullet prefix and
    without prices.  [None] when the loop has already skipped it. *)
Definition candidate (raw : str) : option str :=
  let line := strip_bullets (strip raw) in
  if too_short line then None else Some (strip_prices line).

(** One pass of the loop body up to the duplicate check: the cleaned
    line, or [None] where the body runs into a [continue]. *)
Definition clean_line (raw : str) : option str :=
  match candidate raw with
  | None => None
  | Some line =>
    if mentions section_headers line then None
    else if mentions description_words line then None
    else if mostly_symbols line then None
    else
      let line := strip line in
      if too_short line then None else Some line
  end.

(** The loop state: the set [seen] and the list [items]. *)
Definition menu_step (acc : gset str * list str) (raw : str)
    : gset str * list str :=
  let '(seen, items) := acc in
  match clean_line raw with
  | None => acc
  | Some line =>
    if bool_decide (line ∈ seen) then acc
    else ({[line]} ∪ seen, items ++ [line])
  end.

Definition _parse_menu_items (menu_text : str) : list str :=
  match menu_text with
  | [] => []
  | _ => snd (fold_left menu_step (splitlines menu_text) (∅, []))
  end.

(** *** [_serper_image_search] *)

Definition food_keywords : list str :=
  [u "food"; u "dish"; u "meal"; u "recipe"; u "cooking"; u "restaurant";
   u "kitchen"; u "chef"].

(** [img.get(field, '').lower()] *)
Definition lowered_field (img : pyval) (field : str) : Res str :=
  v ← dict_get img field (PStr []);
  match v with
  | PStr s => mret (lower s)
  | _ => no_attribute v (u "lower")
  end.

(** [img.get("imageUrl") or img.get("thumbnailUrl") or img.get("link")] *)
Definition image_url (img : pyval) : Res pyval :=
  a ← dict_get img (u "imageUrl") PNone;
  if truthy a then mret a else
  b ← dict_get img (u "thumbnailUrl") PNone;
  if truthy b then mret b else
  dict_get img (u "link") PNone.

(** [any(keyword in title or keyword in source for keyword in food_keywords)] *)
Definition food_related (title source : str) : bool :=
  existsb (fun keyword => contains title keyword || contains source keyword)
    food_keywords.

(** The [for img in images] loop: [Some url] when it returns from inside
    the loop, [None] when it runs to its end. *)
Fixpoint first_food_image (images : list pyval) : Res (option pyval) :=
  match images with
  | [] => mret None
  | img :: rest =>
    title ← lowered_field img (u "title");
    source ← lowered_field img (u "source");
    if food_related title source then
      url ← image_url img; mret (Some url)
    else first_food_image rest
  end.

Definition _serper_image_search (query : str) (variables : list (str * str))
    : Res pyval :=
  match key_present (variables_get variables SERPER_API_KEY) with
  | None => Raise missing_serper_key
  | Some api_key =>
    let food_query := query ++ u " food dish meal recipe" in
    let payload := PDict [(u "q", PStr food_query); (u "num", PInt 5);
                          (u "safe", PStr (u "active"))] in
    data ← http_post_json W (u "https://google.serper.dev/images") api_key payload;
    found ← dict_get data (u "images") PNone;
    let images := py_or found (PList []) in
    if negb (truthy images) then mret PNone else
    items ← py_iter images;
    hit ← first_food_image items;
    match hit with
    | Some url => mret url
    | None => first ← py_first images; image_url first
    end
  end.

(** *** [serper_first_link] *)

Definition serper_first_link (query : str) (variables : list (str * str))
    : Res pyval :=
  match key_present (variables_get variables SERPER_API_KEY) with
  | None => Raise missing_serper_key
  | Some api_key =>
    let payload := PDict [(u "q", PStr query); (u "num", PInt 5)] in
    data ← http_post_json W (u "https://google.serper.dev/search") api_key payload;
    found ← dict_get data (u "organic") PNone;
    let organic := py_or found (PList []) in
    if negb (truthy organic) then mret PNone else
    first ← py_first organic;
    dict_get first (u "link") PNone
  end.
End SearchHandler.
End SearchHandler.


(** ** main.py *)

Module Main.

(** The conversation store: per thread, the turns as (role, content). *)
Abbreviation Store := (gmap str (list (str * str))).

Section Main.
Context `{Python} (W : World).

(** The fields of [ChatMessage] the turn reads beyond logging them. *)
Record ChatMessage := {
  thread_id : str;
  message : str;
  response_uuid : str;
  model : str;
  variables : list (str * str)
}.

(** The calls of a turn that leave [process_message], in the order made. *)
Inductive event :=
| StreamChunk (text : str)        (* lexia.stream_chunk(data, text) *)
| CompleteResponse (text : str)   (* lexia.complete_response(data, text) *)
| SendError (text : str)          (* lexia.send_error(data, text) *)
| ModelCall (model : str) (messages : list (str * str))
| FileWrite (path content : str)
| SearchCall (query : str).

(** A step of the turn: it reads and updates the store, makes calls, and
    returns or raises. *)
Definition Act (A : Type) : Type := Store -> Res A * Store * list event.

#[export] Instance act_ret : MRet Act := fun A a st => (Ok a, st, []).

#[export] Instance act_bind : MBind Act := fun A B f m st =>
  match m st with
  | (Ok a, st1, t1) => let '(r, st2, t2) := f a st1 in (r, st2, t1 ++ t2)
  | (Raise e, st1, t1) => (Raise e, st1, t1)
  end.

(** [try: m  except Exception as e: h e] around a step. *)
Definition act_try {A} (m : Act A) (h : exn -> Act A) : Act A := fun st =>
  match m st with
  | (Ok a, st1, t1) => (Ok a, st1, t1)
  | (Raise e, st1, t1) => let '(r, st2, t2) := h e st1 in (r, st2, t1 ++ t2)
  end.

(** A computation without calls, inside a step. *)
Definition lift {A} (r : Res A) : Act A := fun st => (r, st, []).

Definition emit (e : event) : Act unit := fun st => (Ok tt, st, [e]).

(** Modelled from the spec: the streaming sink of the [lexia] package
    (section 6).  [stream_chunk] appends text to the response in progress,
    in call order and without acknowledgment; [complete_response] and
    [send_error] are the two terminal calls.  Each call is recorded and
    returns. *)
Definition stream_chunk (text : str) : Act unit := emit (StreamChunk text).
Definition complete_response (text : str) : Act unit := emit (CompleteResponse text).
Definition send_error (text : str) : Act unit := emit (SendError text).

(** [ConversationManager(max_history=10)] *)
Definition max_history : nat := 10.

(** Modelled from the spec: [ConversationManager.add_message] of the
    module [memory] (section 4.1).  The turn is appended, then the oldest
    turns are evicted until the thread holds at most [max_history]; the
    call always succeeds. *)
Definition add_message (tid role content : str) : Act unit := fun st =>
  let turns := default [] (st !! tid) ++ [(role, content)] in
  (Ok tt, <[tid := drop (length turns - max_history) turns]> st, []).

(** Modelled from the spec: [ConversationManager.get_history] (section
    4.1): the turns of the thread, none for an unknown thread; read-only. *)
Definition get_history (tid : str) : Act (list (str * str)) := fun st =>
  (Ok (default [] (st !! tid)), st, []).

Definition OPENAI_API_KEY : str := u "OPENAI_API_KEY".

Definition missing_key_msg : str :=
  u "Sorry, the OpenAI API key is missing or empty. From menu right go to admin mode, then agents and edit the agent in last section you can set the openai key.".

Definition analysing_msg : str := u "🔎 Analizando tu mensaje..." ++ nl.

Definition greetings : list str :=
  [u "hi"; u "hello"; u "hola"; u "hey"; u "buenas"; u "buenos días";
   u "buenas tardes"; u "buenas noches"].

Definition greet_reply : str :=
  u "👋 Hola, dime qué plato quieres preparar (por ejemplo: 'tortilla de patata').".

Definition sys_prompt : str :=
  u "You are a culinary assistant. When the user mentions a dish, "
  ++ u "extract a concise list of core grocery ingredients needed to make it. "
  ++ u "Respond ONLY with a valid JSON array of strings in Spanish where appropriate, "
  ++ u "no extra text. Keep common items simple (e.g., 'huevos', 'patatas', 'cebolla', 'aceite de oliva', 'sal').".

Definition no_ingredients_msg : str :=
  u "No pude identificar ingredientes. Por favor, especifica el plato con más detalle.".

(** *** [_extract_json_array] *)

(** [\[.*\]] with [re.DOTALL] *)
Definition bracketed : regex := [(chr 91, One); (any_char, Star); (chr 93, One)].

Definition _extract_json_array (text : str) : Res pyval :=
  try_except (json_loads text)
    (fun _ =>
       match re_search bracketed text with
       | Some m => try_except (json_loads m) (fun _ => mret (PList []))
       | None => mret (PList [])
       end).

(** *** Normalization of the parsed elements *)

(** The name an element stands for, [None] where the loop continues. *)
Definition item_name (item : pyval) : option str :=
  match item with
  | PStr s => Some (strip s)
  | PDict d =>
    match assoc d (u "name") with
    | Some v => Some (strip (py_str v))
    | None => None
    end
  | _ => None
  end.

(** The loop state: the set [seen] and the list [normalized]. *)
Definition normalize_step (acc : gset str * list str) (item : pyval)
    : gset str * list str :=
  let '(seen, normalized) := acc in
  match item_name item with
  | None => acc
  | Some name =>
    match name with
    | [] => acc
    | _ =>
      if bool_decide (lower name ∈ seen) then acc
      else ({[lower name]} ∪ seen, normalized ++ [name])
    end
  end.

(** From [ingredients = _extract_json_array(raw_content)] to the end of
    the loop: a value that is not a list counts as the empty list. *)
Definition normalize (ingredients : pyval) : list str :=
  let elements := match ingredients with PList l => l | _ => [] end in
  snd (fold_left normalize_step elements (∅, [])).

(** *** The Carrefour lookups *)

Definition not_found : str := u "No encontrado".

(** The chunk and the result line for one ingredient and its link. *)
Definition result_chunk (ing : str) (link : pyval) : str :=
  if truthy link then u "➡️ " ++ ing ++ u ": " ++ py_str link ++ nl
  else u "➡️ " ++ ing ++ u ": " ++ not_found ++ nl.

Definition result_line (ing : str) (link : pyval) : str :=
  if truthy link then u "- " ++ ing ++ u ": " ++ py_str link
  else u "- " ++ ing ++ u ": " ++ not_found.

(** The [try] of the loop body: the progress chunk, then the search; the
    handler sets [link = None]. *)
Definition lookup (data : ChatMessage) (ing : str) : Act pyval :=
  let query := ing ++ u " site:carrefour.es" in
  act_try
    (stream_chunk (u "🔎 Buscando en Carrefour: " ++ ing ++ nl);;
     emit (SearchCall query);;
     lift (SearchHandler.serper_first_link W query (variables data)))
    (fun _ => mret PNone).

(** [for ing in normalized], with [results_lines] as accumulator. *)
Fixpoint search_loop (data : ChatMessage) (items : list str)
    (results_lines : list str) : Act (list str) :=
  match items with
  | [] => mret results_lines
  | ing :: rest =>
    link ← lookup data ing;
    stream_chunk (result_chunk ing link);;
    search_loop data rest (results_lines ++ [result_line ing link])
  end.

Definition results_header : str := u "🛒 Enlaces de Carrefour por ingrediente:".
Definition items_header : str := u "🍳 Ingredientes detectados:".

(** The final text, from the item list and the result lines. *)
Definition final_response (normalized results_lines : list str) : str :=
  join nl [items_header;
           u "- " ++ join (nl ++ u "- ") normalized;
           [];
           join nl results_lines].

(** [for ing in normalized: lexia.stream_chunk(data, f"- {ing}\n")] *)
Fixpoint stream_items (items : list str) : Act unit :=
  match items with
  | [] => mret tt
  | ing :: rest => stream_chunk (u "- " ++ ing ++ nl);; stream_items rest
  end.

(** The Carrefour part of the turn, from the search loop to the
    completion: the lookups, the composed text, its turn in the store and
    the terminal call. *)
Definition carrefour_flow (data : ChatMessage) (normalized : list str) : Act unit :=
  results_lines ← search_loop data normalized [results_header];
  let final := final_response normalized results_lines in
  add_message (thread_id data) (u "assistant") final;;
  complete_response final.

(** *** [process_message] *)

(** The [try] block.  The logging calls and the construction of the
    client object make no call that leaves the process and are left out. *)
Definition process_message_body (data : ChatMessage) : Act unit :=
  match SearchHandler.key_present (variables_get (variables data) OPENAI_API_KEY) with
  | None =>
    stream_chunk missing_key_msg;;
    complete_response missing_key_msg
  | Some openai_api_key =>
    add_message (thread_id data) (u "user") (message data);;
    thread_history ← get_history (thread_id data);
    stream_chunk analysing_msg;;
    let msg_lower := lower (strip (message data)) in
    if bool_decide (msg_lower ∈ greetings) then
      stream_chunk greet_reply;;
      complete_response greet_reply
    else
      let messages := [(u "system", sys_prompt); (u "user", message data)] in
      emit (ModelCall (model data) messages);;
      choices ← lift (chat_completions_create W (model data) messages);
      content ← lift (match choices with
                      | c :: _ => Ok c
                      | [] => Raise (Exn IndexError (u "list index out of range"))
                      end);
      let raw_content := match content with
                         | Some (c :: r) => c :: r
                         | _ => u "[]"
                         end in
      ingredients ← lift (_extract_json_array raw_content);
      let normalized := normalize ingredients in
      match normalized with
      | [] =>
        stream_chunk no_ingredients_msg;;
        complete_response no_ingredients_msg
      | _ =>
        let target_path := u "/tmp/ingredients.txt" in
        let written := concat (map (fun ing => ing ++ nl) normalized) in
        emit (FileWrite target_path written);;
        lift (write_text_file W target_path written);;
        stream_chunk (items_header ++ nl);;
        stream_items normalized;;
        stream_chunk (nl ++ u "🗂️ Guardados " ++ str_of_nat (len normalized)
                      ++ u " ingredientes en ingredients.txt" ++ nl ++ nl);;
        carrefour_flow data normalized
      end
  end.

(** [process_message]: the handler of the outermost [try] reports what
    the block raised.  The result is the store after the turn and the
    calls made. *)
Definition process_message (data : ChatMessage) (st : Store) : Store * list event :=
  match process_message_body data st with
  | (Ok _, st1, t1) => (st1, t1)
  | (Raise e, st1, t1) =>
    let error_msg := u "Error processing message: " ++ exn_str e in
    let '(_, st2, t2) := send_error error_msg st1 in
    (st2, t1 ++ t2)
  end.
End Main.
End Main.


(** ** search_handler.py: the gallery and the function-call dispatcher *)

(** *** Comparisons and ranges on dynamic values *)

(** [f > k] for a float and an int, compared exactly; false for NaN. *)
Definition float_gt (f : pyfloat) (k : Z) : bool :=
  match f with
  | FFinite m e =>
    if (0 <=? e)%Z then (k <? m * 2 ^ e)%Z else (k * 2 ^ (- e) <? m)%Z
  | FInf negative => negb negative
  | FNaN => false
  end.

(** Whether a number exceeds an int bound; other values do not compare
    with an int and give the error [e]. *)
Definition exceeds (v : pyval) (bound : Z) (e : exn) : Res bool :=
  match v with
  | PInt n => Ok (bound <? n)%Z
  | PBool b => Ok (bound <? (if b then 1 else 0))%Z
  | PFloat f => Ok (float_gt f bound)
  | _ => Raise e
  end.

(** [min(v, bound)]: the first argument unless [bound < v]. *)
Definition py_min (v : pyval) (bound : Z) : Res pyval :=
  over ← exceeds v bound
    (Exn TypeError (u "'<' not supported between instances of 'int' and '"
                    ++ type_name v ++ u "'"));
  mret (if over : bool then PInt bound else v).

(** [max(bound, v)]: the first argument unless [v > bound]. *)
Definition py_max (bound : Z) (v : pyval) : Res pyval :=
  over ← exceeds v bound
    (Exn TypeError (u "'>' not supported between instances of '"
                    ++ type_name v ++ u "' and 'int'"));
  mret (if over : bool then v else PInt bound).

(** How often [for n in range(v)] runs. *)
Definition py_range (v : pyval) : Res nat :=
  match v with
  | PInt n => Ok (Z.to_nat n)
  | PBool b => Ok (if b then 1 else 0)%nat
  | _ => Raise (Exn TypeError
           (u "'" ++ type_name v ++ u "' object cannot be interpreted as an integer"))
  end.

(** The items [for x in v[:n]] visits, for a bound [n] of any type. *)
Definition py_slice_items_any (v n : pyval) : Res (list pyval) :=
  match v with
  | PList _ | PStr _ =>
    match n with
    | PInt k => py_slice_items v k
    | PBool b => py_slice_items v (if b then 1 else 0)
    | PNone => py_iter v
    | _ => Raise (Exn TypeError
             (u "slice indices must be integers or None or have an __index__ method"))
    end
  | _ => py_slice_items v 0
  end.

Module Dispatch.
Section Dispatch.
Context `{Python}.
Import Main SearchHandler.

(** *** [google_search] as the dispatcher calls it

    The dispatcher passes what it finds in the decoded arguments, of
    whatever type. *)
Definition google_search_body_any (W : World) (query num_results : pyval)
    (variables : option (list (str * str))) : Res str :=
  match variables with
  | None | Some [] =>
    Raise (Exn ValueError (u "Variables not provided to google_search"))
  | Some vars =>
    match key_present (variables_get vars SERPER_API_KEY) with
    | None => Raise missing_serper_key
    | Some serper_api_key =>
      num ← py_min num_results 10;
      let payload := PDict [(u "q", query); (u "num", num)] in
      data ← http_post_json W (u "https://google.serper.dev/search")
               serper_api_key payload;
      has_organic ← py_in (u "organic") data;
      results ←
        (if has_organic : bool then
           organic ← py_getitem data (u "organic");
           items ← py_slice_items_any organic num_results;
           format_results 1 items
         else mret []);
      match results with
      | [] => mret (search_header (py_str query)
                    ++ u "No results found for your search query.")
      | _ => mret (search_header (py_str query) ++ join nl results)
      end
    end
  end.

Definition google_search_any (W : World) (query num_results : pyval)
    (variables : option (list (str * str))) : Res str :=
  try_except (google_search_body_any W query num_results variables)
    (fun e => mret (search_error e)).

(** *** [build_menu_gallery] *)

(** [max(1, min(results_per_item or 1, 3))] *)
Definition clamp_results_per_item (results_per_item : pyval) : Res pyval :=
  least ← py_min (py_or results_per_item (PInt 1)) 3;
  py_max 1 least.

(** [_parse_menu_items(menu_text)] for a value of any type: a false value
    gives no items, and only a string has [splitlines]. *)
Definition parse_menu_value (menu_text : pyval) : Res (list str) :=
  if negb (truthy menu_text) then Ok []
  else
    match menu_text with
    | PStr s => Ok (_parse_menu_items s)
    | _ => no_attribute menu_text (u "splitlines")
    end.

(** [_write_menu_file(items, target_path)] *)
Definition _write_menu_file (W : World) (items : list str) (target_path : str)
    : Act unit :=
  let written := concat (map (fun item => item ++ nl) items) in
  emit (FileWrite target_path written);;
  lift (write_text_file W target_path written).

Definition image_tag (image_url : pyval) : str :=
  u "[lexia.image.start]" ++ py_str image_url ++ u "[lexia.image.end]".

(** The line of the summary for an image of the item. *)
Definition gallery_entry (idx : nat) (item : str) (image_url : pyval) : str :=
  str_of_nat idx ++ u ". " ++ item ++ u ": " ++ image_tag image_url.

(** [for n in range(results_per_item)], from attempt [n] with [remaining]
    attempts to go: a search that raises or finds no image ends the loop.
    [Wi n] is the world as it answers attempt [n]. *)
Fixpoint image_attempts (Wi : nat -> World) (variables : list (str * str))
    (idx : nat) (item : str) (n remaining : nat)
    (found_any : bool) (combined : list str) : Act (bool * list str) :=
  match remaining with
  | O => mret (found_any, combined)
  | S remaining' =>
    emit (SearchCall item);;
    match _serper_image_search (Wi n) item variables with
    | Ok image_url =>
      if truthy image_url then
        stream_chunk (image_tag image_url);;
        image_attempts Wi variables idx item (S n) remaining' true
          (combined ++ [gallery_entry idx item image_url])
      else mret (found_any, combined)
    | Raise _ => mret (found_any, combined)
    end
  end.

(** [for idx, item in enumerate(items, start=idx)].  [Wg idx n] is the
    world as it answers attempt [n] for item [idx]. *)
Fixpoint gallery_loop (Wg : nat -> nat -> World) (variables : list (str * str))
    (results_per_item : pyval) (idx : nat) (items : list str)
    (combined : list str) : Act (list str) :=
  match items with
  | [] => mret combined
  | item :: rest =>
    stream_chunk (nl ++ str_of_nat idx ++ u ". " ++ item);;
    times ← lift (py_range results_per_item);
    '(found_any, combined) ←
      image_attempts (Wg idx) variables idx item 0 times false combined;
    (if found_any : bool then mret tt
     else stream_chunk (u "⚠️ No image found for: " ++ item));;
    gallery_loop Wg variables results_per_item (S idx) rest combined
  end.

Definition no_menu_items : str := u "No menu items detected to build a gallery.".

(** [build_menu_gallery].  Items count from 1, and [Wg 0 0] is the world
    as it answers the write of the menu file. *)
Definition build_menu_gallery (Wg : nat -> nat -> World) (menu_text : pyval)
    (variables : list (str * str)) (results_per_item : pyval) : Act str :=
  results_per_item ← lift (clamp_results_per_item results_per_item);
  items ← lift (parse_menu_value menu_text);
  match items with
  | [] => mret no_menu_items
  | _ =>
    _write_menu_file (Wg 0 0)%nat items (u "/tmp/menu.txt");;
    stream_chunk (nl ++ u "🗂️ Saved menu items to menu.txt ("
                  ++ str_of_nat (len items) ++ u " items)");;
    combined ←
      gallery_loop Wg variables results_per_item 1 items
        [nl ++ u "🍽️ **Menu Gallery** (" ++ str_of_nat (len items)
         ++ u " items)" ++ nl];
    mret (join nl combined)
  end.

(** *** [execute_function_call] *)

(** [function_call['function'][field]] *)
Definition function_field (function_call : pyval) (field : str) : Res pyval :=
  function ← py_getitem function_call (u "function");
  py_getitem function field.

(** [json.loads(v)]: only text is decoded. *)
Definition json_loads_value (v : pyval) : Res pyval :=
  match v with
  | PStr s => json_loads s
  | _ => Raise (Exn TypeError
           (u "the JSON object must be str, bytes or bytearray, not "
            ++ type_name v))
  end.

(** [v == s] for a string [s] *)
Definition is_str (v : pyval) (s : str) : bool :=
  match v with
  | PStr x => str_eqb x s
  | _ => false
  end.

Definition function_error (text : str) : str :=
  nl ++ nl ++ u "❌ **Function Error:** " ++ text.

(** The [try] block of [execute_function_call].  [Wc 0 0] is the world as
    it answers the web search. *)
Definition execute_function_call_body (Wc : nat -> nat -> World)
    (function_call : pyval) (data : ChatMessage) : Act str :=
  function_name ← lift (function_field function_call (u "name"));
  stream_chunk (nl ++ u "⚙️ **Processing function:** " ++ py_str function_name);;
  if is_str function_name (u "google_search") then
    arguments ← lift (function_field function_call (u "arguments"));
    args ← lift (json_loads_value arguments);
    query ← lift (dict_get args (u "query") PNone);
    num_results ← lift (dict_get args (u "num_results") (PInt 5));
    stream_chunk (nl ++ u "🔍 **Searching Google for:** " ++ py_str query);;
    result ← lift (google_search_any (Wc 0 0)%nat query num_results
                     (Some (variables data)));
    stream_chunk result;;
    mret result
  else if is_str function_name (u "build_menu_gallery") then
    arguments ← lift (function_field function_call (u "arguments"));
    args ← lift (json_loads_value arguments);
    menu_text ← lift (dict_get args (u "menu_text") (PStr []));
    results_per_item ← lift (dict_get args (u "results_per_item") (PInt 1));
    if negb (truthy menu_text) then
      mret (function_error (u "menu_text is required for build_menu_gallery"))
    else
      stream_chunk (nl ++ u "📋 **Building menu gallery**");;
      summary ← build_menu_gallery Wc menu_text (variables data) results_per_item;
      stream_chunk (nl ++ u "✅ **Menu gallery built**" ++ nl ++ summary);;
      mret summary
  else
    mret (function_error (u "Unknown function: " ++ py_str function_name)).

(** The handler of [execute_function_call]: it reads the name of the
    function again. *)
Definition execution_error (function_call : pyval) (e : exn) : Act str :=
  function_name ← lift (function_field function_call (u "name"));
  let error_msg := u "Error executing function " ++ py_str function_name
                   ++ u ": " ++ exn_str e in
  mret (nl ++ nl ++ u "❌ **Function Execution Error:** " ++ error_msg).

Definition execute_function_call (Wc : nat -> nat -> World)
    (function_call : pyval) (data : ChatMessage) : Act str :=
  act_try (execute_function_call_body Wc function_call data)
    (execution_error function_call).

(** *** [process_function_calls] *)

Definition processing_error (e : exn) : str :=
  let error_msg := u "Error processing function call: " ++ exn_str e in
  nl ++ nl ++ u "❌ **Function Processing Error:** " ++ error_msg.

(** [for function_call in function_calls], with [combined_result] as
    accumulator.  [Wp i] is the family of worlds of call [i]. *)
Fixpoint process_calls (Wp : nat -> nat -> nat -> World)
    (function_calls : list pyval) (data : ChatMessage)
    (combined_result : str) : Act str :=
  match function_calls with
  | [] => mret combined_result
  | function_call :: rest =>
    result ← act_try (execute_function_call (Wp 0%nat) function_call data)
               (fun e => mret (processing_error e));
    process_calls (fun i => Wp (S i)) rest data (combined_result ++ result)
  end.

Definition process_function_calls (Wp : nat -> nat -> nat -> World)
    (function_calls : list pyval) (data : ChatMessage) : Act str :=
  match function_calls with
  | [] => mret []
  | _ => process_calls Wp function_calls data []
  end.

End Dispatch.
End Dispatch.

(** ** A reference interpreter for the scenarios

    The scenarios below run the modules on concrete turns.  They use an
    instance of [Python] that is exact on the inputs they feed it: case
    mapping up to U+00FF and ASCII digits, [str()] of [None], booleans and
    integers, the credential lookup of [lexia.Variables] (a dict built
    from the list, so the last binding of a name wins), and a JSON decoder
    for documents made of objects, arrays, strings without escapes,
    integers and the three literals; it raises on any other text. *)

Module Json.

(** JSON whitespace *)
Definition is_ws (c : N) : bool := (c =? 32) || (c =? 9) || (c =? 10) || (c =? 13).

Fixpoint skip_ws (s : str) : str :=
  match s with
  | c :: r => if is_ws c then skip_ws r else s
  | [] => []
  end.

(** The characters of a string up to its closing quote; escapes and
    control characters are outside the fragment. *)
Fixpoint string_body (s : str) (acc : str) : option (str * str) :=
  match s with
  | [] => None
  | c :: r =>
    if c =? 34 then Some (rev acc, r)
    else if (c =? 92) || (c <? 32) then None
    else string_body r (c :: acc)
  end.

Fixpoint digits (s : str) (acc : Z) : Z * str :=
  match s with
  | c :: r =>
    if is_ascii_digit c then digits r (10 * acc + Z.of_N (c - 48))%Z else (acc, s)
  | [] => (acc, [])
  end.

(** [d[k] = v] on the entries of a dict *)
Fixpoint dict_set (d : list (str * pyval)) (k : str) (v : pyval) : list (str * pyval) :=
  match d with
  | [] => [(k, v)]
  | (k', v') :: r => if str_eqb k' k then (k, v) :: r else (k', v') :: dict_set r k v
  end.

(** An integer: [0] or a nonzero digit and more digits; a fraction or an
    exponent after it is outside the fragment. *)
Definition number (negative : bool) (s : str) : option (pyval * str) :=
  match s with
  | c :: r =>
    if is_ascii_digit c then
      let '(n, rest) := if c =? 48 then (0%Z, r) else digits s 0%Z in
      match rest with
      | d :: _ => if (d =? 46) || (d =? 101) || (d =? 69) then None
                  else Some (PInt (if negative then - n else n)%Z, rest)
      | [] => Some (PInt (if negative then - n else n)%Z, rest)
      end
    else None
  | [] => None
  end.

(** The elements of an array after the first, up to the closing bracket. *)
Fixpoint elements (fuel : nat) (value : str -> option (pyval * str))
    (s : str) (acc : list pyval) : option (pyval * str) :=
  match fuel with
  | O => None
  | S f =>
    match skip_ws s with
    | 93 :: r => Some (PList (rev acc), r)
    | 44 :: r =>
      match value r with
      | Some (v, r') => elements f value r' (v :: acc)
      | None => None
      end
    | _ => None
    end
  end.

(** One member [key : value] of an object. *)
Definition member (value : str -> option (pyval * str)) (s : str)
    : option (str * pyval * str) :=
  match skip_ws s with
  | 34 :: r =>
    match string_body r [] with
    | Some (k, r1) =>
      match skip_ws r1 with
      | 58 :: r2 =>
        match value r2 with
        | Some (v, r3) => Some (k, v, r3)
        | None => None
        end
      | _ => None
      end
    | None => None
    end
  | _ => None
  end.

(** The members of an object after the first, up to the closing brace. *)
Fixpoint members (fuel : nat) (value : str -> option (pyval * str))
    (s : str) (acc : list (str * pyval)) : option (pyval * str) :=
  match fuel with
  | O => None
  | S f =>
    match skip_ws s with
    | 125 :: r => Some (PDict acc, r)
    | 44 :: r =>
      match member value r with
      | Some (k, v, r') => members f value r' (dict_set acc k v)
      | None => None
      end
    | _ => None
    end
  end.

(** A value after optional whitespace; [fuel] bounds the nesting. *)
Fixpoint value (fuel : nat) (s : str) : option (pyval * str) :=
  match fuel with
  | O => None
  | S f =>
    match skip_ws s with
    | 34 :: r =>
      match string_body r [] with
      | Some (x, r') => Some (PStr x, r')
      | None => None
      end
    | 91 :: r =>
      match skip_ws r with
      | 93 :: r' => Some (PList [], r')
      | _ =>
        match value f r with
        | Some (v, r') => elements (S (length r')) (value f) r' [v]
        | None => None
        end
      end
    | 123 :: r =>
      match skip_ws r with
      | 125 :: r' => Some (PDict [], r')
      | _ =>
        match member (value f) r with
        | Some (k, v, r') => members (S (length r')) (value f) r' [(k, v)]
        | None => None
        end
      end
    | 45 :: r => number true r
    | c :: r =>
      if startswith (c :: r) (u "null") then Some (PNone, drop 4 (c :: r))
      else if startswith (c :: r) (u "true") then Some (PBool true, drop 4 (c :: r))
      else if startswith (c :: r) (u "false") then Some (PBool false, drop 5 (c :: r))
      else number false (c :: r)
    | [] => None
    end
  end.

(** [json.loads] on the fragment: one value, whitespace around it. *)
Definition loads (text : str) : Res pyval :=
  match value (S (length text)) text with
  | Some (v, rest) =>
    match skip_ws rest with
    | [] => Ok v
    | _ => Raise (Exn JSONDecodeError (u "Extra data"))
    end
  | None => Raise (Exn JSONDecodeError (u "Expecting value"))
  end.

End Json.

Module Scenario.

(** The dict [Variables] builds: a later binding replaces an earlier one. *)
Fixpoint last_binding (vars : list (str * str)) (name : str) : option str :=
  match vars with
  | [] => None
  | (n, v) :: r =>
    match last_binding r name with
    | Some v' => Some v'
    | None => if str_eqb n name then Some v else None
    end
  end.

Definition repr_atom (v : pyval) : str :=
  match v with
  | PNone => u "None"
  | PBool true => u "True"
  | PBool false => u "False"
  | PInt n => str_of_Z n
  | PStr s => s
  | _ => u "..."
  end.

(** Lowercase of a code point up to U+00FF. *)
Definition latin1_lower_char (c : N) : N :=
  if is_ascii_upper c then c + 32
  else if (192 <=? c) && (c <=? 222) && negb (c =? 215) then c + 32
  else c.

#[export] Instance reference : Python := {|
  unicode_lower := map latin1_lower_char;
  unicode_decimal := fun _ => false;
  json_loads := Json.loads;
  py_repr := repr_atom;
  variables_get := last_binding
|}.

(** A JSON text written with an apostrophe wherever the document has a
    double quote. *)
Definition dq (s : str) : str := map (fun c => if c =? 39 then 34 else c) s.

Definition credentials : list (str * str) :=
  [(u "OPENAI_API_KEY", u "sk-test"); (u "SERPER_API_KEY", u "serper-test")].

Definition turn (text : str) (vars : list (str * str)) : Main.ChatMessage :=
  {| Main.thread_id := u "thread-1";
     Main.message := text;
     Main.response_uuid := u "response-1";
     Main.model := u "gpt-4o-mini";
     Main.variables := vars |}.

(** The [q] of a search payload. *)
Definition query_of (payload : pyval) : str :=
  match payload with
  | PDict d => match assoc d (u "q") with Some (PStr q) => q | _ => [] end
  | _ => []
  end.

Definition organic (link : str) : pyval :=
  PDict [(u "organic",
          PList [PDict [(u "title", PStr (u "Carrefour")); (u "link", PStr link)]])].

(** A world without network: every call that leaves the process raises. *)
Definition offline : World :=
  {| http_post_json := fun _ _ _ => Raise (Exn RequestException (u "Connection refused"));
     chat_completions_create := fun _ _ => Raise (Exn APIError (u "Connection error."));
     write_text_file := fun _ _ => Raise (Exn OSError (u "Read-only file system")) |}.

(** The tortilla scenario: the model answers with the five ingredients;
    the search finds a link for two of them, reports no result for one,
    and fails for the other two. *)
Definition tortilla_world : World :=
  {| http_post_json := fun url key payload =>
       let q := query_of payload in
       if str_eqb q (u "huevos site:carrefour.es") then
         Ok (organic (u "https://www.carrefour.es/huevos"))
       else if str_eqb q (u "patatas site:carrefour.es") then
         Raise (Exn RequestException (u "Read timed out."))
       else if str_eqb q (u "cebolla site:carrefour.es") then
         Ok (PDict [(u "organic", PList [])])
       else if str_eqb q (u "aceite de oliva site:carrefour.es") then
         Ok (organic (u "https://www.carrefour.es/aceite"))
       else Raise (Exn HTTPError (u "500 Server Error"));
     chat_completions_create := fun _ _ =>
       Ok [Some (dq (u "['huevos','patatas','cebolla','aceite de oliva','sal']"))];
     write_text_file := fun _ _ => Ok tt |}.

Definition tortilla_items : list str :=
  [u "huevos"; u "patatas"; u "cebolla"; u "aceite de oliva"; u "sal"].

(** Image searches: the provider answers with the given body. *)
Definition image_world (body : pyval) : World :=
  {| http_post_json := fun _ _ _ => Ok body;
     chat_completions_create := fun _ _ => Raise (Exn APIError (u "Connection error."));
     write_text_file := fun _ _ => Ok tt |}.

(** One image the provider describes without any address. *)
Definition image_without_url : list (str * pyval) :=
  [(u "images",
    PList [PDict [(u "title", PStr (u "Paella recipe"));
                  (u "source", PStr (u "Cocina"))]])].

(** Three images: a logo, then two that carry a food keyword. *)
Definition three_images : list (str * pyval) :=
  [(u "images",
    PList [PDict [(u "title", PStr (u "Logo")); (u "source", PStr (u "Brand"));
                  (u "imageUrl", PStr (u "https://img.example/logo.png"))];
           PDict [(u "title", PStr (u "Paella RECIPE"));
                  (u "thumbnailUrl", PStr (u "https://img.example/paella-small.jpg"))];
           PDict [(u "title", PStr (u "Best chef"));
                  (u "imageUrl", PStr (u "https://img.example/chef.jpg"))]])].

End Scenario.


(** ** Vocabulary of the properties *)

(** A string [s.strip()] leaves nothing of. *)
Definition blank (s : str) : bool := forallb is_space s.

(** The entries of [l] whose key is not in [seen] and has not occurred
    earlier in [l], in the order of [l]. *)
Fixpoint first_seen (key : str -> str) (seen : gset str) (l : list str) : list str :=
  match l with
  | [] => []
  | x :: r =>
    if bool_decide (key x ∈ seen) then first_seen key seen r
    else x :: first_seen key ({[key x]} ∪ seen) r
  end.


(** A string without whitespace at either end. *)
Definition trimmed (s : str) : Prop := lstrip s = s ∧ lstrip (rev s) = rev s.

(** [.*\]] after the opening bracket: the greedy star gives back
    characters until the last closing bracket. *)
Definition greedy_close : str -> option str :=
  match_here [(any_char, Star); (chr 93, One)].

(** The text has an opening bracket with a closing bracket after it. *)
Definition bracket_pair (text : str) : Prop :=
  ∃ pre mid post, text = pre ++ 91 :: mid ++ 93 :: post.

(** The bracketed part of the text that starts at its first opening
    bracket and ends at its last closing bracket. *)
Definition widest_bracketed (text m : str) : Prop :=
  ∃ pre mid post,
    text = pre ++ 91 :: mid ++ 93 :: post ∧ (91 ∉ pre) ∧ (93 ∉ post)
    ∧ m = 91 :: mid ++ [93].

Section MainVocabulary.
Context `{Python}.

(** An element the normalization takes a name from: a plain string, or an
    object with a [name] field. *)
Definition accepted (item : pyval) : Prop :=
  match item with
  | PStr _ => True
  | PDict d => is_Some (assoc d (u "name"))
  | _ => False
  end.

(** The trimmed names of the accepted elements that are not empty, in the
    order of the elements. *)
Definition candidate_names (elements : list pyval) : list str :=
  filter (fun name : str => name ≠ []) (omap Main.item_name elements).

End MainVocabulary.

(** The two terminal calls of the sink. *)
Definition terminal (e : Main.event) : bool :=
  match e with
  | Main.CompleteResponse _ | Main.SendError _ => true
  | _ => false
  end.

Definition is_complete (e : Main.event) : bool :=
  match e with Main.CompleteResponse _ => true | _ => false end.

Definition is_error (e : Main.event) : bool :=
  match e with Main.SendError _ => true | _ => false end.

Definition is_chunk (e : Main.event) : bool :=
  match e with Main.StreamChunk _ => true | _ => false end.

(** How many calls of a kind a trace holds. *)
Definition count (kind : Main.event -> bool) (t : list Main.event) : nat :=
  length (List.filter kind t).

(** A trace without terminal call. *)
Definition quiet (t : list Main.event) : Prop := Forall (fun e => terminal e = false) t.

(** A step that makes no terminal call, whatever its outcome. *)
Definition silent {A} (m : Main.Act A) : Prop := ∀ st, quiet (m st).2.

(** A step that, where it returns, has made one terminal call, a
    completion, as its last call, and where it raises has made none. *)
Definition completes_once (m : Main.Act unit) : Prop :=
  ∀ st,
    match m st with
    | (Ok _, _, t) =>
      ∃ before text, t = before ++ [Main.CompleteResponse text] ∧ quiet before
    | (Raise _, _, t) => quiet t
    end.

Section TurnVocabulary.
Context `{Python} (W : World).

(** The query of the lookup for an ingredient. *)
Definition carrefour_query (ing : str) : str := ing ++ u " site:carrefour.es".

(** The link the loop holds for an ingredient after its [try]: the value
    the search returned, [None] where it raised. *)
Definition link_of (data : Main.ChatMessage) (ing : str) : pyval :=
  match SearchHandler.serper_first_link W (carrefour_query ing) (Main.variables data) with
  | Ok link => link
  | Raise _ => PNone
  end.

(** The calls the loop makes for one ingredient. *)
Definition item_events (data : Main.ChatMessage) (ing : str) : list Main.event :=
  [Main.StreamChunk (u "🔎 Buscando en Carrefour: " ++ ing ++ nl);
   Main.SearchCall (carrefour_query ing);
   Main.StreamChunk (Main.result_chunk ing (link_of data ing))].

(** The lines of the composed response: the items section, an empty
    line, the results section. *)
Definition response_lines (data : Main.ChatMessage) (normalized : list str) : list str :=
  Main.items_header :: map (fun ing => u "- " ++ ing) normalized
  ++ [] :: Main.results_header
  :: map (fun ing => Main.result_line ing (link_of data ing)) normalized.

End TurnVocabulary.

Section ImageVocabulary.
Context `{Python}.

(** The text of a field of an image record as the loop reads it: the
    empty string for a missing field; [None] for a value that is not a
    string. *)
Definition text_field (d : list (str * pyval)) (k : str) : option str :=
  match assoc d k with
  | None => Some []
  | Some (PStr s) => Some s
  | Some _ => None
  end.

(** An image record: an object whose title and source, where present, are
    strings. *)
Definition image_record (img : pyval) : Prop :=
  ∃ d title source,
    img = PDict d ∧ text_field d (u "title") = Some title
    ∧ text_field d (u "source") = Some source.

(** The lowercased title or source of the image contains a food keyword. *)
Definition mentions_food (img : pyval) : bool :=
  match img with
  | PDict d =>
    match text_field d (u "title"), text_field d (u "source") with
    | Some title, Some source =>
      SearchHandler.food_related (lower title) (lower source)
    | _, _ => false
    end
  | _ => false
  end.

(** The address an image record gives: [imageUrl], else [thumbnailUrl],
    else [link], taking the first that is set and not empty; [None] for a
    record with none of the three. *)
Definition url_field (img : pyval) : pyval :=
  match img with
  | PDict d =>
    let field k := match assoc d k with Some v => v | None => PNone end in
    py_or (py_or (field (u "imageUrl")) (field (u "thumbnailUrl"))) (field (u "link"))
  | _ => PNone
  end.

(** The request of [_serper_image_search] for a query. *)
Definition image_payload (query : str) : pyval :=
  PDict [(u "q", PStr (query ++ u " food dish meal recipe")); (u "num", PInt 5);
         (u "safe", PStr (u "active"))].

End ImageVocabulary.

(** ** Vocabulary of the further properties *)

Section TurnPaths.
Context `{Python} (W : World).

(** The messages of the model call of a turn. *)
Definition chat_messages (data : Main.ChatMessage) : list (str * str) :=
  [(u "system", Main.sys_prompt); (u "user", Main.message data)].

(** [completion.choices[0].message.content] of the model call. *)
Definition first_choice (data : Main.ChatMessage) : Res (option str) :=
  choices ← chat_completions_create W (Main.model data) (chat_messages data);
  match choices with
  | c :: _ => Ok c
  | [] => Raise (Exn IndexError (u "list index out of range"))
  end.

(** [content or "[]"] *)
Definition raw_content (content : option str) : str :=
  match content with
  | Some (c :: r) => c :: r
  | _ => u "[]"
  end.

(** What the turn writes to [ingredients.txt]. *)
Definition ingredients_file (normalized : list str) : str :=
  concat (map (fun ing => ing ++ nl) normalized).

(** The calls a turn makes up to and including the model call. *)
Definition opening_events (data : Main.ChatMessage) : list Main.event :=
  [Main.StreamChunk Main.analysing_msg;
   Main.ModelCall (Main.model data) (chat_messages data)].

(** The chunks that list the detected items. *)
Definition listing_events (normalized : list str) : list Main.event :=
  Main.StreamChunk (Main.items_header ++ nl)
  :: map (fun ing => Main.StreamChunk (u "- " ++ ing ++ nl)) normalized
  ++ [Main.StreamChunk (nl ++ u "🗂️ Guardados " ++ str_of_nat (len normalized)
                        ++ u " ingredientes en ingredients.txt" ++ nl ++ nl)].

(** The calls of the loop for an item whose search gives no link. *)
Definition not_found_events (ing : str) : list Main.event :=
  [Main.StreamChunk (u "🔎 Buscando en Carrefour: " ++ ing ++ nl);
   Main.SearchCall (carrefour_query ing);
   Main.StreamChunk (u "➡️ " ++ ing ++ u ": " ++ Main.not_found ++ nl)].

End TurnPaths.

Section SearchVocabulary.
Context `{Python}.

(** The entry [google_search] renders for result [i]: a missing field
    takes its default. *)
Definition result_entry (i : nat) (result : list (str * pyval)) : str :=
  let field k default :=
    py_str (match assoc result k with Some v => v | None => PStr default end) in
  str_of_nat i ++ u ". **" ++ field (u "title") (u "No title") ++ u "**" ++ nl
  ++ u "   " ++ field (u "snippet") (u "No description available") ++ nl
  ++ u "   [Link](" ++ field (u "link") [] ++ u ")" ++ nl.

(** The request of [google_search]. *)
Definition search_payload (query : str) (num_results : Z) : pyval :=
  PDict [(u "q", PStr query); (u "num", PInt (Z.min num_results 10))].

(** The request of [serper_first_link]. *)
Definition first_link_payload (query : str) : pyval :=
  PDict [(u "q", PStr query); (u "num", PInt 5)].

End SearchVocabulary.

(** A step that leaves the conversation store as it is and makes no
    terminal call, whatever its outcome. *)
Definition bystander {A} (m : Main.Act A) : Prop :=
  ∀ st, (m st).1.2 = st ∧ quiet (m st).2.

Definition is_search (e : Main.event) : bool :=
  match e with Main.SearchCall _ => true | _ => false end.

Definition is_file_write (e : Main.event) : bool :=
  match e with Main.FileWrite _ _ => true | _ => false end.

Section GalleryVocabulary.
Context `{Python}.

(** What an image search finds in a world: the address, or [None] where
    the search raises or returns a false value. *)
Definition image_found (W : World) (variables : list (str * str)) (item : str)
    : option pyval :=
  match SearchHandler._serper_image_search W item variables with
  | Ok image_url => if truthy image_url then Some image_url else None
  | Raise _ => None
  end.

(** The images of the attempts [n], [n + 1], ... for an item, up to the
    first attempt that finds none and up to [times] attempts. *)
Fixpoint leading_images (Wi : nat -> World) (variables : list (str * str))
    (item : str) (n times : nat) : list pyval :=
  match times with
  | O => []
  | S times' =>
    match image_found (Wi n) variables item with
    | Some image_url =>
      image_url :: leading_images Wi variables item (S n) times'
    | None => []
    end
  end.

(** The calls of the attempts for an item: a search and an image chunk
    per image found, and one more search where an attempt found none. *)
Definition attempt_events (item : str) (images : list pyval) (times : nat)
    : list Main.event :=
  concat (map (fun image_url =>
                 [Main.SearchCall item;
                  Main.StreamChunk (Dispatch.image_tag image_url)]) images)
  ++ (if (length images <? times)%nat then [Main.SearchCall item] else []).

(** The calls of the gallery for item [idx]. *)
Definition gallery_item_events (Wg : nat -> nat -> World)
    (variables : list (str * str)) (times idx : nat) (item : str)
    : list Main.event :=
  let images := leading_images (Wg idx) variables item 0 times in
  Main.StreamChunk (nl ++ str_of_nat idx ++ u ". " ++ item)
  :: attempt_events item images times
  ++ match images with
     | [] => [Main.StreamChunk (u "⚠️ No image found for: " ++ item)]
     | _ => []
     end.

(** The lines of the summary for item [idx]. *)
Definition gallery_item_entries (Wg : nat -> nat -> World)
    (variables : list (str * str)) (times idx : nat) (item : str) : list str :=
  map (Dispatch.gallery_entry idx item)
    (leading_images (Wg idx) variables item 0 times).

(** The first line of the summary. *)
Definition gallery_header (items : list str) : str :=
  nl ++ u "🍽️ **Menu Gallery** (" ++ str_of_nat (len items) ++ u " items)" ++ nl.

(** What the gallery writes to [menu.txt]. *)
Definition menu_file (items : list str) : str :=
  concat (map (fun item => item ++ nl) items).

(** The chunk that announces a function. *)
Definition processing_chunk (function_name : pyval) : Main.event :=
  Main.StreamChunk (nl ++ u "⚙️ **Processing function:** " ++ py_str function_name).

End GalleryVocabulary.


Section DispatchVocabulary.
Context `{Python}.

(** The arguments of a function call as the dispatcher reads them: the
    text under [arguments], decoded, and an object with a [get]. *)
Definition decoded_arguments (function_call : pyval)
    : Res (list (str * pyval)) :=
  arguments ← Dispatch.function_field function_call (u "arguments");
  args ← Dispatch.json_loads_value arguments;
  match args with
  | PDict d => Ok d
  | _ => no_attribute args (u "get")
  end.

(** [args.get(k, default)] on the decoded arguments. *)
Definition argument (d : list (str * pyval)) (k : str) (default : pyval)
    : pyval :=
  match assoc d k with
  | Some v => v
  | None => default
  end.

(** The text [execute_function_call] returns for an exception. *)
Definition execution_error_text (function_name : pyval) (e : exn) : str :=
  nl ++ nl ++ u "❌ **Function Execution Error:** "
  ++ u "Error executing function " ++ py_str function_name
  ++ u ": " ++ exn_str e.

(** The values that compare with an int. *)
Definition is_number (v : pyval) : bool :=
  match v with
  | PInt _ | PBool _ | PFloat _ => true
  | _ => false
  end.

(** What a call adds to the combined result: its text, or the text of
    the exception it raises. *)
Definition call_result (Wc : nat -> nat -> World) (function_call : pyval)
    (data : Main.ChatMessage) (st : Main.Store) : str :=
  match (Dispatch.execute_function_call Wc function_call data st).1.1 with
  | Ok result => result
  | Raise e => Dispatch.processing_error e
  end.

(** The calls a function call makes. *)
Definition call_events (Wc : nat -> nat -> World) (function_call : pyval)
    (data : Main.ChatMessage) (st : Main.Store) : list Main.event :=
  (Dispatch.execute_function_call Wc function_call data st).2.

End DispatchVocabulary.

(** ** Further scenarios *)

Module Cases.
Import Scenario.

(** A world whose model answers with [content] and whose file write
    gives [written]; it has no network for the searches. *)
Definition answering (content : option str) (written : Res unit) : World :=
  {| http_post_json := fun _ _ _ =>
       Raise (Exn RequestException (u "Connection refused"));
     chat_completions_create := fun _ _ => Ok [content];
     write_text_file := fun _ _ => written |}.

(** A credential set with the model key alone. *)
Definition model_key_only : list (str * str) :=
  [(u "OPENAI_API_KEY", u "sk-test")].

(** Three results of a web search; the second has a title only. *)
Definition three_results : list (list (str * pyval)) :=
  [[(u "title", PStr (u "Paella valenciana"));
    (u "link", PStr (u "https://example.org/paella"));
    (u "snippet", PStr (u "Arroz, pollo y judías"))];
   [(u "title", PStr (u "Paella de marisco"))];
   [(u "title", PStr (u "Arroz negro"));
    (u "link", PStr (u "https://example.org/negro"));
    (u "snippet", PStr (u "Con sepia"))]].

(** Every web search answers with the three results. *)
Definition results_world : World :=
  {| http_post_json := fun _ _ _ =>
       Ok (PDict [(u "organic", PList (PDict <$> three_results))]);
     chat_completions_create := fun _ _ => Raise (Exn APIError (u "Connection error."));
     write_text_file := fun _ _ => Ok tt |}.

(** A function call as the model sends it. *)
Definition function_call_of (name arguments : str) : pyval :=
  PDict [(u "function",
          PDict [(u "name", PStr name); (u "arguments", PStr arguments)])].

(** The worlds of a gallery: the file can be written; the searches for
    the first item find an image twice and then fail; those for the other
    items fail. *)
Definition gallery_worlds (idx n : nat) : World :=
  match idx with
  | O => image_world (PDict [])
  | S O => if (n <? 2)%nat then image_world (PDict three_images) else offline
  | _ => offline
  end.

Definition two_dishes : str := u "Paella" ++ nl ++ u "- Gazpacho".

(** The float 2.5 *)
Definition two_and_a_half : pyfloat := FFinite 5 (-1).

End Cases.
(** * Properties *)

(** ** Strings *)

Lemma lstrip_head s c r : lstrip s = c :: r → is_space c = false.
Proof.
  induction s as [|x s IH]; simpl; [done|].
  destruct (is_space x) eqn:Hx; [done|].
  by intros [= -> _].
Qed.

Lemma lstrip_lstrip s : lstrip (lstrip s) = lstrip s.
Proof.
  induction s as [|x s IH]; simpl; [done|].
  destruct (is_space x) eqn:Hx; [done|]. simpl. by rewrite Hx.
Qed.

Lemma lstrip_app_nonspace s c : is_space c = false →
  ∃ r, lstrip (s ++ [c]) = r ++ [c].
Proof.
  intros Hc. induction s as [|x s [r Hr]]; simpl.
  - rewrite Hc. by exists [].
  - destruct (is_space x).
    + by exists r.
    + by exists (x :: s).
Qed.

(** Stripping the right end leaves the left end as it was. *)
Lemma rstrip_keeps_left s : lstrip s = s → lstrip (rstrip s) = rstrip s.
Proof.
  unfold rstrip. destruct s as [|h t]; [done|].
  intros Hs. pose proof (lstrip_head _ _ _ Hs) as Hh.
  simpl. destruct (lstrip_app_nonspace (rev t) h Hh) as [r ->].
  rewrite rev_app_distr. simpl. by rewrite Hh.
Qed.

Lemma strip_trimmed s : trimmed (strip s).
Proof.
  unfold trimmed, strip. split.
  - apply rstrip_keeps_left, lstrip_lstrip.
  - unfold rstrip. rewrite rev_involutive. apply lstrip_lstrip.
Qed.

Lemma trimmed_strip s : trimmed s → strip s = s.
Proof.
  intros [Hl Hr]. unfold strip, rstrip. rewrite Hl, Hr. apply rev_involutive.
Qed.

Lemma trimmed_not_blank s : trimmed s → s ≠ [] → blank s = false.
Proof.
  intros [Hl _] Hne. destruct s as [|c r]; [done|].
  simpl. by rewrite (lstrip_head _ _ _ Hl).
Qed.

Lemma strip_strip s : strip (strip s) = strip s.
Proof. apply trimmed_strip, strip_trimmed. Qed.

(** ** Keeping the first occurrence of each key *)

Section FirstSeen.
Variable key : str -> str.

Lemma first_seen_sublist seen l : first_seen key seen l `sublist_of` l.
Proof.
  revert seen. induction l as [|x l IH]; intros seen; simpl; [done|].
  case_bool_decide.
  - by apply sublist_cons.
  - by apply sublist_skip.
Qed.

Lemma first_seen_fresh seen l x : x ∈ first_seen key seen l → key x ∉ seen.
Proof.
  revert seen. induction l as [|y l IH]; intros seen; simpl.
  - by intros ?%elem_of_nil.
  - case_bool_decide as Hy; [by apply IH|].
    intros [->|Hx]%elem_of_cons; [done|].
    apply IH in Hx. set_solver.
Qed.

Lemma first_seen_NoDup seen l : NoDup (key <$> first_seen key seen l).
Proof.
  revert seen. induction l as [|y l IH]; intros seen; simpl.
  - constructor.
  - case_bool_decide as Hy; [by apply IH|].
    rewrite fmap_cons. constructor; [|by apply IH].
    intros (z & Hz & Hin)%list_elem_of_fmap.
    apply first_seen_fresh in Hin. set_solver.
Qed.

Lemma first_seen_covers seen l x :
  x ∈ l → key x ∈ seen ∨ key x ∈ key <$> first_seen key seen l.
Proof.
  revert seen. induction l as [|y l IH]; intros seen; simpl.
  - by intros ?%elem_of_nil.
  - intros [->|Hx]%elem_of_cons.
    + case_bool_decide; [by left|]. right. rewrite fmap_cons. by left.
    + case_bool_decide as Hy; [by apply IH|].
      destruct (IH ({[key y]} ∪ seen) Hx) as [Hs|Hs].
      * apply elem_of_union in Hs as [->%elem_of_singleton|Hs]; [|by left].
        right. rewrite fmap_cons. by left.
      * right. rewrite fmap_cons. by right.
Qed.


Lemma first_seen_elem seen l x : x ∈ first_seen key seen l → x ∈ l.
Proof. intros Hx. eapply elem_of_sublist; [done|apply first_seen_sublist]. Qed.

End FirstSeen.

(** ** Normalization of the model's elements *)

Section Normalization.
Context `{Python}.
Import Main.

Lemma item_name_accepted item name :
  item_name item = Some name → accepted item ∧ trimmed name.
Proof.
  destruct item as [| | | |s|l|d]; simpl; try done.
  - intros [= <-]. split; [done|apply strip_trimmed].
  - destruct (assoc d (u "name")) as [v|] eqn:Hd; [|done].
    intros [= <-]. split; [by eexists|apply strip_trimmed].
Qed.

(** The loop of [normalize] keeps, of the candidate names, the first of
    each lowercase form. *)
Lemma normalize_fold elements seen normalized :
  snd (fold_left normalize_step elements (seen, normalized))
  = normalized ++ first_seen lower seen (candidate_names elements).
Proof.
  revert seen normalized.
  induction elements as [|item elements IH]; intros seen normalized; simpl.
  - by rewrite app_nil_r.
  - unfold candidate_names. simpl.
    destruct (item_name item) as [name|] eqn:Hitem; simpl; [|apply IH].
    destruct name as [|c name].
    + rewrite filter_cons_False by naive_solver. apply IH.
    + rewrite filter_cons_True by done. simpl.
      case_bool_decide; [apply IH|].
      fold (candidate_names elements). rewrite IH.
      by rewrite <- app_assoc.
Qed.

Lemma normalize_first_seen ingredients :
  normalize ingredients
  = first_seen lower ∅
      (candidate_names (match ingredients with PList l => l | _ => [] end)).
Proof. unfold normalize. by rewrite normalize_fold. Qed.

Lemma candidate_names_elem elements name :
  name ∈ candidate_names elements ↔
  name ≠ [] ∧ ∃ item, item ∈ elements ∧ item_name item = Some name.
Proof.
  unfold candidate_names. rewrite list_elem_of_filter, list_elem_of_omap.
  naive_solver.
Qed.


End Normalization.

(** ** Menu parsing *)


Section MenuParsing.
Context `{Python}.
Import SearchHandler.


(** The loop of [_parse_menu_items] keeps the first occurrence of each
    cleaned line. *)
Lemma menu_fold lines seen items :
  snd (fold_left menu_step lines (seen, items))
  = items ++ first_seen id seen (omap clean_line lines).
Proof.
  revert seen items.
  induction lines as [|raw lines IH]; intros seen items; simpl.
  - by rewrite app_nil_r.
  - destruct (clean_line raw) as [line|] eqn:Hraw; simpl; [|apply IH].
    change (id line) with line. case_bool_decide; [apply IH|].
    rewrite IH. by rewrite <- app_assoc.
Qed.

Lemma parse_menu_items_first_seen menu_text :
  _parse_menu_items menu_text
  = first_seen id ∅ (omap clean_line (splitlines menu_text)).
Proof.
  unfold _parse_menu_items. destruct menu_text as [|c r]; [done|].
  by rewrite menu_fold.
Qed.

Lemma clean_line_inv raw item :
  clean_line raw = Some item →
  ∃ line, candidate raw = Some line ∧ item = strip line
          ∧ mentions section_headers line = false
          ∧ mentions description_words line = false
          ∧ mostly_symbols line = false
          ∧ too_short item = false.
Proof.
  unfold clean_line. destruct (candidate raw) as [line|]; [|done].
  destruct (mentions section_headers line) eqn:Hh; [done|].
  destruct (mentions description_words line) eqn:Hd; [done|].
  destruct (mostly_symbols line) eqn:Hm; [done|].
  destruct (too_short (strip line)) eqn:Hs; [done|].
  intros [= <-]. by exists line.
Qed.


End MenuParsing.

(** ** Extraction of the JSON array *)

Lemma match_here_bracketed s :
  match_here Main.bracketed s
  = match s with
    | x :: s' => if x =? 91 then greedy_close s' else None
    | [] => None
    end.
Proof. by destruct s. Qed.

Lemma greedy_close_cons x s :
  greedy_close (x :: s)
  = match greedy_close s with
    | Some r => Some r
    | None => if x =? 93 then Some s else None
    end.
Proof. reflexivity. Qed.

Lemma greedy_close_none s : 93 ∉ s → greedy_close s = None.
Proof.
  induction s as [|x s IH]; [done|].
  intros Hx. rewrite greedy_close_cons, IH by set_solver.
  destruct (N.eqb_spec x 93) as [->|]; [|done].
  exfalso. apply Hx. by left.
Qed.

Lemma greedy_close_last mid post :
  93 ∉ post → greedy_close (mid ++ 93 :: post) = Some post.
Proof.
  intros Hpost. induction mid as [|x mid IH]; simpl app.
  - by rewrite greedy_close_cons, greedy_close_none.
  - by rewrite greedy_close_cons, IH.
Qed.

Lemma greedy_close_some s post :
  greedy_close s = Some post → ∃ mid, s = mid ++ 93 :: post ∧ 93 ∉ post.
Proof.
  induction s as [|x s IH]; [done|].
  rewrite greedy_close_cons.
  destruct (greedy_close s) as [r|] eqn:Hs.
  - intros [= ->]. destruct (IH eq_refl) as (mid & -> & Hpost).
    by exists (x :: mid).
  - destruct (N.eqb_spec x 93) as [->|]; [|done].
    intros [= ->]. exists []. split; [done|].
    intros Hin. destruct (list_elem_of_split_r post 93 Hin) as (m1 & m2 & -> & Hm2).
    by rewrite greedy_close_last in Hs.
Qed.

Lemma take_matched (m post : str) : take (length (m ++ post) - length post) (m ++ post) = m.
Proof.
  replace (length (m ++ post) - length post)%nat with (length m)
    by (rewrite length_app; lia).
  by rewrite take_app_length.
Qed.

Lemma length_bracketed_match (mid post s : str) :
  s = 91 :: mid ++ 93 :: post →
  take (length s - length post) s = 91 :: mid ++ [93].
Proof.
  intros ->.
  change (91 :: mid ++ 93 :: post) with ((91 :: mid) ++ [93] ++ post).
  rewrite app_assoc. apply take_matched.
Qed.

(** [re.search] finds the widest bracketed part. *)
Lemma re_search_bracketed_found pre mid post :
  91 ∉ pre → 93 ∉ post →
  re_search Main.bracketed (pre ++ 91 :: mid ++ 93 :: post)
  = Some (91 :: mid ++ [93]).
Proof.
  intros Hpre Hpost. induction pre as [|y pre IH].
  - cbn [app re_search]. rewrite match_here_bracketed.
    cbn [N.eqb Pos.eqb]. rewrite greedy_close_last by done.
    by rewrite (length_bracketed_match mid post).
  - cbn [app re_search]. rewrite match_here_bracketed.
    destruct (N.eqb_spec y 91) as [->|]; [exfalso; apply Hpre; by left|].
    apply IH. set_solver.
Qed.

Lemma re_search_bracketed_some text m :
  re_search Main.bracketed text = Some m → widest_bracketed text m.
Proof.
  induction text as [|x text IH]; [done|].
  cbn [re_search]. rewrite match_here_bracketed.
  destruct (N.eqb_spec x 91) as [->|Hx].
  - destruct (greedy_close text) as [post|] eqn:Hg.
    + apply greedy_close_some in Hg as (mid & -> & Hpost).
      rewrite (length_bracketed_match mid post) by done. intros [= <-].
      exists [], mid, post. split_and!; [done|set_solver|done|done].
    + intros Hm. destruct (IH Hm) as (pre & mid & post & -> & _ & _ & _).
      exfalso.
      destruct (list_elem_of_split_r (pre ++ 91 :: mid ++ 93 :: post) 93)
        as (l1 & l2 & Heq & Hl2); [set_solver|].
      rewrite Heq, greedy_close_last in Hg by done. done.
  - intros Hm. destruct (IH Hm) as (pre & mid & post & -> & Hpre & Hpost & ->).
    exists (x :: pre), mid, post. split_and!; [done| |done|done].
    apply not_elem_of_cons. split; [congruence|done].
Qed.

Lemma re_search_bracketed_none text :
  ¬ bracket_pair text → re_search Main.bracketed text = None.
Proof.
  intros Hno. destruct (re_search Main.bracketed text) as [m|] eqn:Hs; [|done].
  apply re_search_bracketed_some in Hs as (pre & mid & post & -> & _).
  exfalso. apply Hno. by exists pre, mid, post.
Qed.

Lemma bracket_pair_found text :
  bracket_pair text → ∃ m, re_search Main.bracketed text = Some m.
Proof.
  intros (pre & mid & post & ->).
  induction pre as [|y pre IH].
  - cbn [app re_search]. rewrite match_here_bracketed. cbn [N.eqb Pos.eqb].
    destruct (list_elem_of_split_r (mid ++ 93 :: post) 93)
      as (l1 & l2 & Heq & Hl2); [set_solver|].
    rewrite Heq, greedy_close_last by done. by eexists.
  - cbn [app re_search].
    destruct (match_here Main.bracketed (y :: pre ++ 91 :: mid ++ 93 :: post));
      [by eexists|apply IH].
Qed.

Section Extraction.
Context `{Python}.
Import Main.

(** C4: [_extract_json_array] returns a value for every text.  It is the
    direct parse of the text where that succeeds; failing that, the parse
    of the part from the first opening bracket to the last closing bracket,
    newlines included, where the text has such a part and it parses; and
    the empty list in every other case, in particular for a text that
    neither parses nor holds a bracket pair. *)
Theorem extract_json_array_never_raises (text : str) :
  (∃ v, _extract_json_array text = Ok v) ∧
  (∀ v, json_loads text = Ok v → _extract_json_array text = Ok v) ∧
  (∀ e m, json_loads text = Raise e → widest_bracketed text m →
     _extract_json_array text
     = Ok (match json_loads m with Ok v => v | Raise _ => PList [] end)) ∧
  (∀ e, json_loads text = Raise e →
     91 ∉ text ∨ 93 ∉ text ∨ ¬ bracket_pair text →
     _extract_json_array text = Ok (PList [])) ∧
  (bracket_pair text → ∃ m, widest_bracketed text m).
Proof.
  unfold _extract_json_array. split_and!.
  - destruct (json_loads text) as [v|e]; simpl; [by eexists|].
    destruct (re_search bracketed text) as [m|]; [|by eexists].
    destruct (json_loads m); simpl; by eexists.
  - by intros v ->.
  - intros e m -> (pre & mid & post & -> & Hpre & Hpost & ->). simpl.
    rewrite re_search_bracketed_found by done.
    by destruct (json_loads (91 :: mid ++ [93])).
  - intros e -> Hno. simpl. rewrite re_search_bracketed_none; [done|].
    intros (pre & mid & post & ->).
    destruct Hno as [Hno | [Hno | Hno]].
    + apply Hno. set_solver.
    + apply Hno. set_solver.
    + apply Hno. by exists pre, mid, post.
  - intros [m Hm]%bracket_pair_found. exists m.
    by apply re_search_bracketed_some.
Qed.

End Extraction.

(** ** [google_search] *)

Section GoogleSearch.
Context `{Python} (W : World).
Import SearchHandler.

(** C10: for every query, result count and variables value,
    [google_search] returns a text and raises nothing.  Whatever its body
    raises comes back as the rendered error; that covers variables that
    are missing or empty and a credential set without [SERPER_API_KEY]. *)
Theorem google_search_never_raises
    (query : str) (num_results : Z) (variables : option (list (str * str))) :
  ∃ text,
    google_search W query num_results variables = Ok text ∧
    (∀ t, google_search_body W query num_results variables = Ok t → text = t) ∧
    (∀ e, google_search_body W query num_results variables = Raise e →
       text = search_error e) ∧
    (variables = None ∨ variables = Some [] →
       text = search_error
                (Exn ValueError (u "Variables not provided to google_search"))) ∧
    (∀ vars, variables = Some vars → vars ≠ [] →
       key_present (variables_get vars SERPER_API_KEY) = None →
       text = search_error missing_serper_key).
Proof.
  unfold google_search.
  destruct (google_search_body W query num_results variables) as [t|e] eqn:Hbody.
  - exists t. split_and!.
    + reflexivity.
    + intros ? [= ->]. reflexivity.
    + intros ? [=].
    + intros [-> | ->]; discriminate Hbody.
    + intros vars -> Hne Hkey. unfold google_search_body in Hbody.
      destruct vars; [congruence|]. rewrite Hkey in Hbody. discriminate Hbody.
  - exists (search_error e). split_and!.
    + reflexivity.
    + intros ? [=].
    + intros ? [= ->]. reflexivity.
    + intros [-> | ->]; injection Hbody as <-; reflexivity.
    + intros vars -> Hne Hkey. unfold google_search_body in Hbody.
      destruct vars; [congruence|]. rewrite Hkey in Hbody.
      injection Hbody as <-. reflexivity.
Qed.

End GoogleSearch.

(** ** Steps of a turn *)

Section Steps.
Import Main.

Lemma quiet_app t1 t2 : quiet t1 → quiet t2 → quiet (t1 ++ t2).
Proof. apply Forall_app_2. Qed.

Lemma silent_ret {A} (a : A) : silent (mret a : Act A).
Proof. intros st. constructor. Qed.

Lemma silent_lift {A} (r : Res A) : silent (lift r).
Proof. intros st. constructor. Qed.

Lemma silent_emit e : terminal e = false → silent (emit e).
Proof. intros He st. by repeat constructor. Qed.

Lemma silent_bind {A B} (m : Act A) (f : A → Act B) :
  silent m → (∀ a, silent (f a)) → silent (m ≫= f).
Proof.
  intros Hm Hf st. specialize (Hm st). unfold mbind, act_bind.
  destruct (m st) as [[[a|e] st1] t1]; [|done].
  specialize (Hf a st1). destruct (f a st1) as [[r st2] t2].
  by apply quiet_app.
Qed.

Lemma silent_try {A} (m : Act A) (h : exn → Act A) :
  silent m → (∀ e, silent (h e)) → silent (act_try m h).
Proof.
  intros Hm Hh st. specialize (Hm st). unfold act_try.
  destruct (m st) as [[[a|e] st1] t1]; [done|].
  specialize (Hh e st1). destruct (h e st1) as [[r st2] t2].
  by apply quiet_app.
Qed.

Lemma silent_add_message tid role content : silent (add_message tid role content).
Proof. intros st. constructor. Qed.

Lemma silent_get_history tid : silent (get_history tid).
Proof. intros st. constructor. Qed.

Lemma silent_stream_chunk text : silent (stream_chunk text).
Proof. by apply silent_emit. Qed.

Lemma completes_once_complete text : completes_once (complete_response text).
Proof. intros st. exists [], text. split; [done|constructor]. Qed.

Lemma completes_once_bind {A} (m : Act A) (f : A → Act unit) :
  silent m → (∀ a, completes_once (f a)) → completes_once (m ≫= f).
Proof.
  intros Hm Hf st. specialize (Hm st). unfold mbind, act_bind.
  destruct (m st) as [[[a|e] st1] t1]; [|done].
  specialize (Hf a st1). destruct (f a st1) as [[[[]|e] st2] t2].
  - destruct Hf as (before & text & -> & Hq).
    exists (t1 ++ before), text. split; [by rewrite app_assoc|by apply quiet_app].
  - by apply quiet_app.
Qed.

Lemma silent_stream_items items : silent (stream_items items).
Proof.
  induction items as [|ing items IH]; simpl.
  - apply silent_ret.
  - apply silent_bind; [apply silent_stream_chunk|done].
Qed.

End Steps.

(** ** The Carrefour lookups *)

Lemma join_cons2 (sep a b : str) (l : list str) :
  join sep (a :: b :: l) = a ++ sep ++ join sep (b :: l).
Proof. reflexivity. Qed.

Lemma join_app (sep : str) (l1 l2 : list str) :
  l1 ≠ [] → l2 ≠ [] →
  join sep (l1 ++ l2) = join sep l1 ++ sep ++ join sep l2.
Proof.
  intros H1 H2. induction l1 as [|a l1 IH]; [done|].
  destruct l1 as [|b l1].
  - destruct l2 as [|c l2]; [done|]. reflexivity.
  - change ((a :: b :: l1) ++ l2) with (a :: b :: (l1 ++ l2)).
    rewrite !join_cons2.
    change (b :: l1 ++ l2) with ((b :: l1) ++ l2).
    rewrite IH by done. by rewrite <- !app_assoc.
Qed.

(** ["- " + "\n- ".join(items)] is the items, one per line, each after its
    dash. *)
Lemma dashed_join (sep dash : str) (items : list str) :
  items ≠ [] →
  dash ++ join (sep ++ dash) items = join sep (map (fun x => dash ++ x) items).
Proof.
  intros Hne. induction items as [|a items IH]; [done|].
  destruct items as [|b items]; [reflexivity|].
  specialize (IH ltac:(done)).
  cbn [map] in *. rewrite !join_cons2, <- !app_assoc.
  do 3 f_equal. exact IH.
Qed.

Section Lookups.
Context `{Python} (W : World).
Import Main.

Lemma lookup_run data ing st :
  lookup W data ing st
  = (Ok (link_of W data ing), st,
     [StreamChunk (u "🔎 Buscando en Carrefour: " ++ ing ++ nl);
      SearchCall (carrefour_query ing)]).
Proof.
  unfold lookup, link_of, carrefour_query, act_try, mbind, act_bind,
    stream_chunk, emit, lift.
  by destruct (SearchHandler.serper_first_link W _ _).
Qed.

Lemma search_loop_run data items results_lines st :
  search_loop W data items results_lines st
  = (Ok (results_lines
         ++ map (fun ing => result_line ing (link_of W data ing)) items),
     st, concat (map (item_events W data) items)).
Proof.
  revert results_lines. induction items as [|ing items IH]; intros results_lines.
  - simpl. by rewrite app_nil_r.
  - cbn [search_loop]. unfold mbind at 1, act_bind at 1. rewrite lookup_run.
    unfold mbind at 1, act_bind at 1, stream_chunk, emit. rewrite IH.
    cbn [map concat]. rewrite <- app_assoc. reflexivity.
Qed.

Lemma item_events_quiet data ing : quiet (item_events W data ing).
Proof. by repeat constructor. Qed.

Lemma search_loop_silent data items results_lines :
  silent (search_loop W data items results_lines).
Proof.
  intros st. rewrite search_loop_run. cbn [snd].
  induction items as [|ing items IH]; [constructor|].
  cbn [map concat]. apply quiet_app; [apply item_events_quiet|done].
Qed.

Lemma carrefour_flow_run data normalized st :
  ∃ st',
    carrefour_flow W data normalized st
    = (Ok tt, st',
       concat (map (item_events W data) normalized)
       ++ [CompleteResponse
             (final_response normalized
                (results_header
                 :: map (fun ing => result_line ing (link_of W data ing)) normalized))]).
Proof.
  unfold carrefour_flow. unfold mbind at 1, act_bind at 1.
  rewrite search_loop_run.
  unfold mbind, act_bind, add_message, complete_response, emit.
  eexists. cbn [app]. reflexivity.
Qed.


End Lookups.

(** ** The turn *)

Lemma count_app kind t1 t2 : count kind (t1 ++ t2) = (count kind t1 + count kind t2)%nat.
Proof. unfold count. by rewrite List.filter_app, length_app. Qed.

Lemma quiet_count t : quiet t → count is_complete t = 0%nat ∧ count is_error t = 0%nat.
Proof.
  unfold count. induction 1 as [|e t He _ [IH1 IH2]]; [done|].
  destruct e; try done; simpl; auto.
Qed.

(** One step that makes no terminal call, in front of the rest of the
    turn. *)
Ltac silent_step :=
  apply completes_once_bind;
  [ first [ apply silent_stream_chunk | apply silent_add_message
          | apply silent_get_history | apply silent_lift
          | apply silent_stream_items | apply silent_emit; reflexivity ]
  | intros ? ].

Section Turn.
Context `{Python} (W : World).
Import Main.

Lemma carrefour_flow_completes_once data normalized :
  completes_once (carrefour_flow W data normalized).
Proof.
  unfold carrefour_flow.
  apply completes_once_bind; [apply search_loop_silent|]. intros results_lines.
  cbv zeta. silent_step. apply completes_once_complete.
Qed.

(** Every path through the [try] block that returns has made exactly one
    terminal call, a completion, and a path that raises has made none. *)
Lemma process_message_body_completes_once data :
  completes_once (process_message_body W data).
Proof.
  unfold process_message_body.
  destruct (SearchHandler.key_present _) as [openai_api_key|].
  2: { silent_step. apply completes_once_complete. }
  do 3 silent_step. cbv zeta. case_bool_decide.
  { silent_step. apply completes_once_complete. }
  do 4 silent_step.
  destruct (normalize _) as [|ing rest].
  { silent_step. apply completes_once_complete. }
  do 5 silent_step. apply carrefour_flow_completes_once.
Qed.

(** C1: a turn makes exactly one terminal call, and makes it last: the
    completion where the [try] block returns, [send_error] with the
    rendered exception where any step of the block raises; it never makes
    both and never makes none. *)
Theorem process_message_notifies_once (data : ChatMessage) (st : Store) :
  let t := (process_message W data st).2 in
  (count is_complete t + count is_error t = 1)%nat ∧
  (∃ before final, t = before ++ [final] ∧ terminal final = true ∧ quiet before) ∧
  (∀ x, (process_message_body W data st).1.1 = Ok x →
     count is_complete t = 1%nat ∧ count is_error t = 0%nat
     ∧ ∃ text, last t = Some (CompleteResponse text)) ∧
  (∀ e, (process_message_body W data st).1.1 = Raise e →
     count is_complete t = 0%nat ∧ count is_error t = 1%nat
     ∧ last t = Some (SendError (u "Error processing message: " ++ exn_str e))).
Proof.
  cbv zeta. unfold process_message.
  pose proof (process_message_body_completes_once data st) as Hbody.
  destruct (process_message_body W data st) as [[[[]|e] st1] t1]; cbn [fst snd].
  - destruct Hbody as (before & text & -> & Hq).
    destruct (quiet_count _ Hq) as [Hc He].
    rewrite !count_app, Hc, He. split_and!.
    + reflexivity.
    + by exists before, (CompleteResponse text).
    + intros _ _. split_and!; [reflexivity|reflexivity|].
      exists text. apply last_snoc.
    + intros e [=].
  - destruct (quiet_count _ Hbody) as [Hc He].
    unfold send_error, emit. cbn [fst snd].
    rewrite !count_app, Hc, He. split_and!.
    + reflexivity.
    + by eexists t1, _.
    + intros x [=].
    + intros e' [= ->]. split_and!; [reflexivity|reflexivity|apply last_snoc].
Qed.

(** C2: a turn whose credential set has no [OPENAI_API_KEY], or has it
    empty, streams the fixed message, completes with the same message and
    stops: these are its only calls, the store is untouched, and
    [send_error] is not among them. *)
Theorem missing_model_key_is_graceful (data : ChatMessage) (st : Store) :
  variables_get (variables data) OPENAI_API_KEY = None
  ∨ variables_get (variables data) OPENAI_API_KEY = Some [] →
  process_message W data st
  = (st, [StreamChunk missing_key_msg; CompleteResponse missing_key_msg]).
Proof.
  intros Hkey. unfold process_message, process_message_body.
  by destruct Hkey as [-> | ->].
Qed.

(** C3, as the code has it: with the model key present, a message whose
    trimmed, lowercased text is a greeting phrase gets the processing
    acknowledgment and the canned greeting as its two chunks, then one
    completion with the greeting; the model is not called, no search is
    made, and [send_error] is not called. *)
Theorem greeting_short_circuit (data : ChatMessage) (st : Store) (key : str) :
  variables_get (variables data) OPENAI_API_KEY = Some key →
  key ≠ [] →
  lower (strip (message data)) ∈ greetings →
  (process_message W data st).2
  = [StreamChunk analysing_msg; StreamChunk greet_reply; CompleteResponse greet_reply].
Proof.
  intros Hkey Hne Hgreet. unfold process_message, process_message_body.
  rewrite Hkey. destruct key as [|c key]; [done|]. cbn [SearchHandler.key_present].
  unfold mbind, act_bind, add_message, get_history, stream_chunk,
    complete_response, emit.
  rewrite bool_decide_eq_true_2 by done. reflexivity.
Qed.

End Turn.

(** ** The composed response *)

(** The four joined parts of the final text are its lines. *)
Lemma layout_join (sep head dash results_head : str) (items rest : list str) :
  items ≠ [] →
  join sep [head; dash ++ join (sep ++ dash) items; []; join sep (results_head :: rest)]
  = join sep (head :: map (fun x => dash ++ x) items ++ [] :: results_head :: rest).
Proof.
  intros Hne. rewrite (dashed_join sep dash items) by done.
  set (dashed := map (fun x => dash ++ x) items).
  assert (dashed ≠ []) as Hd by (subst dashed; by destruct items).
  change (head :: dashed ++ [] :: results_head :: rest)
    with ([head] ++ dashed ++ [[]] ++ (results_head :: rest)).
  rewrite (join_app sep [head]) by (done || by destruct dashed).
  rewrite (join_app sep dashed) by done.
  rewrite (join_app sep [[]]) by done.
  destruct dashed as [|d ds]; [done|]. reflexivity.
Qed.

Section Composition.
Context `{Python} (W : World).
Import Main.

Lemma final_response_lines normalized rest :
  normalized ≠ [] →
  final_response normalized (results_header :: rest)
  = join nl (items_header
             :: map (fun ing => u "- " ++ ing) normalized
             ++ [] :: results_header :: rest).
Proof. intros Hne. unfold final_response. by apply layout_join. Qed.

Lemma response_lines_length data normalized :
  length (response_lines W data normalized) = (2 * length normalized + 3)%nat.
Proof.
  unfold response_lines. cbn [length]. rewrite length_app. cbn [length].
  rewrite !length_map. lia.
Qed.

Lemma response_lines_item data normalized i ing :
  normalized !! i = Some ing →
  response_lines W data normalized !! (1 + i)%nat = Some (u "- " ++ ing)
  ∧ response_lines W data normalized !! (length normalized + 3 + i)%nat
    = Some (result_line ing (link_of W data ing)).
Proof.
  intros Hi. unfold response_lines.
  set (dashed := map (fun x => u "- " ++ x) normalized).
  set (results := map (fun x => result_line x (link_of W data x)) normalized).
  assert (length dashed = length normalized) as Hlen by apply length_map.
  assert (dashed !! i = Some (u "- " ++ ing)) as Hd.
  { subst dashed. change (map ?f ?l) with (f <$> l).
    by rewrite list_lookup_fmap, Hi. }
  assert (results !! i = Some (result_line ing (link_of W data ing))) as Hr.
  { subst results. change (map ?f ?l) with (f <$> l).
    by rewrite list_lookup_fmap, Hi. }
  clearbody dashed results. split.
  - change ((items_header :: dashed ++ [] :: results_header :: results) !! (1 + i)%nat)
      with ((dashed ++ [] :: results_header :: results) !! i).
    rewrite lookup_app_l; [done|]. by eapply lookup_lt_Some.
  - replace (length normalized + 3 + i)%nat
      with (S (length dashed + S (S i))) by lia.
    change ((items_header :: dashed ++ [] :: results_header :: results)
              !! S (length dashed + S (S i)))
      with ((dashed ++ [] :: results_header :: results)
              !! (length dashed + S (S i))%nat).
    rewrite lookup_app_r by lia.
    replace (length dashed + S (S i) - length dashed)%nat with (S (S i)) by lia.
    exact Hr.
Qed.

(** C7: the text the turn completes with is a function of the item list
    and of the link held for each item.  Its lines are the items header,
    one dashed line per item in item order, an empty line, the results
    header, and one result line per item in the same order, which gives
    the link or "No encontrado". *)
Theorem final_response_fixed_layout
    (data : ChatMessage) (normalized : list str) (st : Store) :
  normalized ≠ [] →
  let lines := response_lines W data normalized in
  (∃ st' before,
     carrefour_flow W data normalized st
     = (Ok tt, st', before ++ [CompleteResponse (join nl lines)])) ∧
  length lines = (2 * length normalized + 3)%nat ∧
  lines !! 0%nat = Some items_header ∧
  (∀ i ing, normalized !! i = Some ing →
     lines !! (1 + i)%nat = Some (u "- " ++ ing)
     ∧ lines !! (length normalized + 3 + i)%nat
       = Some (result_line ing (link_of W data ing))) ∧
  (∀ ing link,
     result_line ing link
     = u "- " ++ ing ++ u ": " ++ (if truthy link then py_str link else not_found)).
Proof.
  intros Hne lines. split_and!.
  - destruct (carrefour_flow_run W data normalized st) as [st' Hrun].
    exists st', (concat (map (item_events W data) normalized)).
    rewrite Hrun. by rewrite final_response_lines.
  - apply response_lines_length.
  - reflexivity.
  - apply response_lines_item.
  - intros ing link. unfold result_line. by destruct (truthy link).
Qed.

End Composition.

(** ** Image search *)

Section ImageSearch.
Context `{Python} (W : World).
Import SearchHandler.

Lemma image_url_record d : image_url (PDict d) = Ok (url_field (PDict d)).
Proof.
  unfold image_url, url_field, py_or, dict_get, mbind, res_bind.
  cbv beta iota zeta.
  destruct (truthy (match assoc d (u "imageUrl") with Some x => x | None => PNone end))
    eqn:Ha; [by rewrite Ha|].
  by destruct (truthy (match assoc d (u "thumbnailUrl") with Some x => x | None => PNone end))
    eqn:Hb.
Qed.

Lemma lowered_field_record d k s :
  text_field d k = Some s → lowered_field (PDict d) k = Ok (lower s).
Proof.
  unfold text_field, lowered_field, dict_get, mbind, res_bind.
  destruct (assoc d k) as [[]|]; try done; by intros [= ->].
Qed.

(** The loop returns the address of the first record that mentions food
    and runs to its end when there is none. *)
Lemma first_food_image_find images :
  Forall image_record images →
  first_food_image images = Ok (url_field <$> List.find mentions_food images).
Proof.
  induction 1 as [|img images (d & title & source & -> & Ht & Hs) _ IH]; [done|].
  cbn [first_food_image List.find mentions_food].
  rewrite (lowered_field_record d _ title Ht), (lowered_field_record d _ source Hs).
  rewrite Ht, Hs. unfold mbind at 1 2, res_bind at 1 2.
  destruct (food_related (lower title) (lower source)); [|exact IH].
  rewrite image_url_record. reflexivity.
Qed.

(** The search once the key is found and the response is an object. *)
Lemma image_search_run query api_key variables d :
  key_present (variables_get variables SERPER_API_KEY) = Some api_key →
  http_post_json W (u "https://google.serper.dev/images") api_key (image_payload query)
  = Ok (PDict d) →
  _serper_image_search W query variables
  = let images :=
      py_or (match assoc d (u "images") with Some x => x | None => PNone end)
        (PList []) in
    if negb (truthy images) then Ok PNone
    else
      items ← py_iter images;
      hit ← first_food_image items;
      match hit with
      | Some url => Ok url
      | None => first ← py_first images; image_url first
      end.
Proof.
  intros Hkey Hpost. unfold _serper_image_search. rewrite Hkey.
  change (PDict [(u "q", PStr (query ++ u " food dish meal recipe"));
                 (u "num", PInt 5); (u "safe", PStr (u "active"))])
    with (image_payload query).
  rewrite Hpost. reflexivity.
Qed.

(** C8, as the code has it: with the key present and a response that is
    an object, the search returns [None] when the response has no images;
    when it has image records, it returns the address of the first one
    whose lowercased title or source contains a food keyword, and that of
    the first record when no record does.  The address is the first of
    [imageUrl], [thumbnailUrl] and [link] that is set and not empty, so it
    is [None] for a record that has none of them and is a value other than
    [None] for a record that has one. *)
Theorem image_search_prefers_food_image
    (query api_key : str) (variables : list (str * str)) (d : list (str * pyval)) :
  key_present (variables_get variables SERPER_API_KEY) = Some api_key →
  http_post_json W (u "https://google.serper.dev/images") api_key (image_payload query)
  = Ok (PDict d) →
  (assoc d (u "images") = None
   ∨ (∃ v, assoc d (u "images") = Some v ∧ truthy v = false) →
     _serper_image_search W query variables = Ok PNone) ∧
  (∀ first rest,
     assoc d (u "images") = Some (PList (first :: rest)) →
     Forall image_record (first :: rest) →
     _serper_image_search W query variables
     = Ok (url_field (default first (List.find mentions_food (first :: rest))))) ∧
  (∀ img, image_record img →
     (∀ k, k ∈ [u "imageUrl"; u "thumbnailUrl"; u "link"] →
        ∀ dict, img = PDict dict → assoc dict k = None) →
     url_field img = PNone) ∧
  (∀ dict k v,
     k ∈ [u "imageUrl"; u "thumbnailUrl"; u "link"] →
     assoc dict k = Some v → truthy v = true →
     truthy (url_field (PDict dict)) = true).
Proof.
  intros Hkey Hpost.
  rewrite (image_search_run query api_key variables d Hkey Hpost).
  split_and!.
  - intros [-> | (v & -> & Hv)]; [reflexivity|].
    cbv zeta. unfold py_or. by rewrite Hv.
  - intros first rest -> Hrec.
    cbv zeta. cbn [py_or truthy negb py_iter]. unfold mbind at 1, res_bind at 1.
    rewrite (first_food_image_find _ Hrec). unfold mbind at 1, res_bind at 1.
    destruct (List.find mentions_food (first :: rest)) as [img|]; [reflexivity|].
    cbn [fmap option_fmap option_map py_first default]. unfold mbind, res_bind.
    inversion Hrec as [|? ? (d1 & ? & ? & -> & _) _]; subst.
    apply image_url_record.
  - intros img (dict & title & source & -> & _) Hnone.
    unfold url_field.
    rewrite (Hnone (u "imageUrl")), (Hnone (u "thumbnailUrl")), (Hnone (u "link"));
      try reflexivity;
      repeat first [apply list_elem_of_here | apply list_elem_of_further].
  - intros dict k v Hk Hv Htrue. unfold url_field, py_or. cbv zeta.
    destruct (truthy (match assoc dict (u "imageUrl") with Some x => x | None => PNone end))
      eqn:Ha; [by rewrite Ha|].
    destruct (truthy (match assoc dict (u "thumbnailUrl") with Some x => x | None => PNone end))
      eqn:Hb; [done|].
    apply elem_of_cons in Hk as [-> | Hk]; [by rewrite Hv, Htrue in Ha|].
    apply elem_of_cons in Hk as [-> | Hk]; [by rewrite Hv, Htrue in Hb|].
    apply elem_of_cons in Hk as [-> | Hk]; [by rewrite Hv|].
    by apply elem_of_nil in Hk.
Qed.

End ImageSearch.

(** ** Scenarios *)

Section Scenarios.
Import Scenario Main.

Example literals_decode :
  u "hola" = [104; 111; 108; 97] ∧ u "días" = [100; 237; 97; 115]
  ∧ u "🔎 " = [128270; 32] ∧ u "€£¥•·" = [8364; 163; 165; 8226; 183].
Proof. vm_compute. auto. Qed.

Example lengths_render :
  str_of_nat 5 = u "5" ∧ str_of_nat 120 = u "120" ∧ str_of_nat 0 = u "0".
Proof. vm_compute. auto. Qed.

Example splitlines_sample :
  splitlines (u "a" ++ [13; 10] ++ u "b" ++ [10; 10] ++ u "c" ++ [10])
  = [u "a"; u "b"; []; u "c"].
Proof. vm_compute. reflexivity. Qed.

(** Prose around the array is cut away; a text without brackets gives the
    empty list. *)
Example extract_from_prose :
  _extract_json_array (dq (u "Claro: ['huevos', 'sal'] y listo")) 
  = Ok (PList [PStr (u "huevos"); PStr (u "sal")])
  ∧ _extract_json_array (u "no lo tengo claro") = Ok (PList [])
  ∧ _extract_json_array (dq (u "{'name': 'sal'}")) = Ok (PDict [(u "name", PStr (u "sal"))]).
Proof. vm_compute. auto. Qed.

Example normalize_sample :
  normalize (PList [PStr (u " Huevos "); PStr (u "huevos"); PInt 3;
                    PDict [(u "name", PStr (u "  Sal"))]; PStr (u "   ");
                    PStr (u "SAL")])
  = [u "Huevos"; u "Sal"].
Proof. vm_compute. reflexivity. Qed.

Example parse_menu_sample :
  SearchHandler._parse_menu_items
    (join nl [u "- Pizza $5.99"; u "* Pasta 12.50 €"; u "MENU"; u "Pizza";
              u "• Soup of the day"; u "Served with bread"; u "12345"; u "x";
              u "Tiramisu"])
  = [u "Pizza"; u "Pasta"; u "Soup of the day"; u "Tiramisu"].
Proof. vm_compute. reflexivity. Qed.

Example google_search_without_variables :
  SearchHandler.google_search offline (u "tortilla") 5 None
  = Ok (u "❌ **Search Error:** Error performing Google search: Variables not provided to google_search")
  ∧ SearchHandler.google_search offline (u "tortilla") 5 (Some credentials)
    = Ok (u "❌ **Search Error:** Error performing Google search: Connection refused").
Proof. vm_compute. auto. Qed.

(** A turn whose model call fails ends in [send_error]. *)
Example offline_turn_reports_error :
  (process_message offline (turn (u "paella") credentials) ∅).2
  = [StreamChunk analysing_msg;
     ModelCall (u "gpt-4o-mini") [(u "system", sys_prompt); (u "user", u "paella")];
     SendError (u "Error processing message: Connection error.")].
Proof. vm_compute. reflexivity. Qed.

(** The tortilla scenario, end to end. *)
Example tortilla_turn_completes :
  last (process_message tortilla_world
          (turn (u "quiero hacer tortilla de patata") credentials) ∅).2
  = Some (CompleteResponse (join nl
      [u "🍳 Ingredientes detectados:";
       u "- huevos"; u "- patatas"; u "- cebolla"; u "- aceite de oliva"; u "- sal";
       [];
       u "🛒 Enlaces de Carrefour por ingrediente:";
       u "- huevos: https://www.carrefour.es/huevos";
       u "- patatas: No encontrado";
       u "- cebolla: No encontrado";
       u "- aceite de oliva: https://www.carrefour.es/aceite";
       u "- sal: No encontrado"])).
Proof. vm_compute. reflexivity. Qed.

(** A turn without credentials. *)
Lemma turn_without_model_key :
  (variables_get (variables (turn (u "paella") [])) OPENAI_API_KEY = None
   ∨ variables_get (variables (turn (u "paella") [])) OPENAI_API_KEY = Some [])
  ∧ process_message offline (turn (u "paella") []) ∅
    = (∅, [StreamChunk missing_key_msg; CompleteResponse missing_key_msg]).
Proof.
  split.
  - left. reflexivity.
  - apply (missing_model_key_is_graceful offline). left. reflexivity.
Defined.

(** The greeting [hello] with the key present: the acknowledgment is
    streamed before the greeting, so the turn streams two chunks and its
    calls are not the greeting chunk and the completion alone.  Without
    the key the same message gets the missing-key message and no
    greeting. *)
Lemma hello_turn_streams_two_chunks :
  let t := (process_message offline (turn (u "hello") credentials) ∅).2 in
  lower (strip (u "hello")) ∈ greetings
  ∧ t = [StreamChunk analysing_msg; StreamChunk greet_reply; CompleteResponse greet_reply]
  ∧ count is_chunk t = 2%nat
  ∧ t ≠ [StreamChunk greet_reply; CompleteResponse greet_reply]
  ∧ (process_message offline (turn (u "hello") []) ∅).2
    = [StreamChunk missing_key_msg; CompleteResponse missing_key_msg].
Proof.
  assert ((process_message offline (turn (u "hello") credentials) ∅).2
          = [StreamChunk analysing_msg; StreamChunk greet_reply;
             CompleteResponse greet_reply]) as Ht by (vm_compute; reflexivity).
  cbv zeta. rewrite Ht. split_and!.
  - apply (bool_decide_unpack _). vm_compute. exact I.
  - reflexivity.
  - reflexivity.
  - discriminate.
  - vm_compute. reflexivity.
Qed.

(** "  HOLA " in any case and with whitespace around it. *)
Lemma hola_turn_short_circuits :
  variables_get (variables (turn (u "  HOLA ") credentials)) OPENAI_API_KEY
  = Some (u "sk-test")
  ∧ u "sk-test" ≠ []
  ∧ lower (strip (message (turn (u "  HOLA ") credentials))) ∈ greetings
  ∧ (process_message tortilla_world (turn (u "  HOLA ") credentials) ∅).2
    = [StreamChunk analysing_msg; StreamChunk greet_reply; CompleteResponse greet_reply].
Proof.
  assert (variables_get (variables (turn (u "  HOLA ") credentials)) OPENAI_API_KEY
          = Some (u "sk-test")) as Hkey by (vm_compute; reflexivity).
  assert (u "sk-test" ≠ []) as Hne by (vm_compute; discriminate).
  assert (lower (strip (message (turn (u "  HOLA ") credentials))) ∈ greetings)
    as Hgreet by (apply (bool_decide_unpack _); vm_compute; exact I).
  split_and!; [exact Hkey|exact Hne|exact Hgreet|].
  exact (greeting_short_circuit tortilla_world _ ∅ _ Hkey Hne Hgreet).
Defined.

(** The tortilla items and the links the scenario holds for them. *)
Lemma tortilla_response_layout :
  let data := turn (u "quiero hacer tortilla de patata") credentials in
  let lines := response_lines tortilla_world data tortilla_items in
  tortilla_items ≠ []
  ∧ (∃ st' before,
       carrefour_flow tortilla_world data tortilla_items ∅
       = (Ok tt, st', before ++ [CompleteResponse (join nl lines)]))
  ∧ length lines = 13%nat.
Proof.
  cbv zeta.
  assert (tortilla_items ≠ []) as Hne by discriminate.
  destruct (final_response_fixed_layout tortilla_world
              (turn (u "quiero hacer tortilla de patata") credentials)
              tortilla_items ∅ Hne) as (Hflow & Hlen & _).
  split_and!; [exact Hne|exact Hflow|exact Hlen].
Defined.

(** An image record that mentions food and carries no address: the
    provider has yielded one image and the search returns [None]. *)
Lemma image_without_address_gives_none :
  assoc image_without_url (u "images")
  = Some (PList [PDict [(u "title", PStr (u "Paella recipe"));
                        (u "source", PStr (u "Cocina"))]])
  ∧ mentions_food (PDict [(u "title", PStr (u "Paella recipe"));
                          (u "source", PStr (u "Cocina"))]) = true
  ∧ SearchHandler._serper_image_search (image_world (PDict image_without_url))
      (u "paella") credentials
    = Ok PNone.
Proof. vm_compute. auto. Qed.

(** Of three images the second is the first to mention food; its address
    is its thumbnail. *)
Lemma three_images_search :
  SearchHandler.key_present (variables_get credentials SearchHandler.SERPER_API_KEY)
  = Some (u "serper-test")
  ∧ SearchHandler._serper_image_search (image_world (PDict three_images))
      (u "paella") credentials
    = Ok (PStr (u "https://img.example/paella-small.jpg")).
Proof.
  assert (SearchHandler.key_present
            (variables_get credentials SearchHandler.SERPER_API_KEY)
          = Some (u "serper-test")) as Hkey by (vm_compute; reflexivity).
  split; [exact Hkey|].
  destruct (image_search_prefers_food_image (image_world (PDict three_images))
              (u "paella") (u "serper-test") credentials three_images Hkey eq_refl)
    as (_ & Hfound & _ & _).
  rewrite (Hfound _ _ eq_refl).
  - vm_compute. reflexivity.
  - repeat constructor; eexists _, _, _; split_and!;
      first [reflexivity | vm_compute; reflexivity].
Defined.

End Scenarios.

(** * Further properties *)

Set Warnings "-clear-no-such-hyp".

(** ** Paths of a turn *)

Section TurnPaths.
Context `{Python} (W : World).
Import Main.

Lemma stream_items_run items st :
  stream_items items st
  = (Ok tt, st, map (fun ing => StreamChunk (u "- " ++ ing ++ nl)) items).
Proof.
  induction items as [|ing items IH]; [reflexivity|].
  cbn [stream_items map]. unfold mbind, act_bind, stream_chunk, emit.
  rewrite IH. reflexivity.
Qed.

(** The [try] block from the model call on, for a turn that has the key
    and is no greeting. *)
Lemma process_message_body_run data st key :
  variables_get (variables data) OPENAI_API_KEY = Some key →
  key ≠ [] →
  lower (strip (message data)) ∉ greetings →
  ∃ st1,
    process_message_body W data st
    = match first_choice W data with
      | Raise e => (Raise e, st1, opening_events data)
      | Ok content =>
        match _extract_json_array (raw_content content) with
        | Raise e => (Raise e, st1, opening_events data)
        | Ok ingredients =>
          match normalize ingredients with
          | [] =>
            (Ok tt, st1,
             opening_events data
             ++ [StreamChunk no_ingredients_msg; CompleteResponse no_ingredients_msg])
          | ing :: rest =>
            let normalized := ing :: rest in
            let written :=
              FileWrite (u "/tmp/ingredients.txt") (ingredients_file normalized) in
            match write_text_file W (u "/tmp/ingredients.txt")
                    (ingredients_file normalized) with
            | Raise e => (Raise e, st1, opening_events data ++ [written])
            | Ok _ =>
              let '(r, st2, t) := carrefour_flow W data normalized st1 in
              (r, st2,
               opening_events data ++ written :: listing_events normalized ++ t)
            end
          end
        end
      end.
Proof.
  intros Hkey Hne Hgreet. unfold process_message_body.
  rewrite Hkey. destruct key as [|c key]; [done|]. cbn [SearchHandler.key_present].
  eexists.
  unfold first_choice, opening_events, chat_messages, raw_content,
    ingredients_file, listing_events.
  unfold mbind, act_bind, res_bind, lift, stream_chunk, complete_response,
    emit, add_message, get_history.
  cbv beta iota zeta. rewrite bool_decide_eq_false_2 by done.
  destruct (chat_completions_create W (model data) _) as [choices|e];
    [|reflexivity].
  destruct choices as [|content choices]; [reflexivity|].
  cbv beta iota.
  destruct (_extract_json_array _) as [ingredients|e]; [|reflexivity].
  destruct (normalize ingredients) as [|ing rest]; [reflexivity|].
  destruct (write_text_file W _ _) as [[]|e]; [|reflexivity].
  cbv beta iota zeta. rewrite stream_items_run. cbv beta iota zeta.
  destruct (carrefour_flow W data (ing :: rest) _) as [[r st2] t].
  cbn [app]. do 4 f_equal. by rewrite <- app_assoc.
Qed.

Lemma process_message_after_raise data st st1 t e :
  process_message_body W data st = (Raise e, st1, t) →
  (process_message W data st).2
  = t ++ [SendError (u "Error processing message: " ++ exn_str e)].
Proof. intros Hbody. unfold process_message. by rewrite Hbody. Qed.

Lemma process_message_after_return data st st1 t x :
  process_message_body W data st = (Ok x, st1, t) →
  (process_message W data st).2 = t.
Proof. intros Hbody. unfold process_message. by rewrite Hbody. Qed.

(** X1: when the model call raises, or returns no choice, the turn has
    streamed the acknowledgment only and ends in [send_error] with the
    rendered exception: nothing is written and no search is made. *)
Theorem model_failure_ends_in_error (data : ChatMessage) (st : Store) (key : str) (e : exn) :
  variables_get (variables data) OPENAI_API_KEY = Some key →
  key ≠ [] →
  lower (strip (message data)) ∉ greetings →
  first_choice W data = Raise e →
  (process_message W data st).2
  = opening_events data
    ++ [SendError (u "Error processing message: " ++ exn_str e)].
Proof.
  intros Hkey Hne Hgreet Hmodel.
  destruct (process_message_body_run data st key Hkey Hne Hgreet) as [st1 Hrun].
  rewrite Hmodel in Hrun. by apply (process_message_after_raise _ _ st1).
Qed.

(** X2: when the model's answer yields no item, the turn streams the
    fixed "could not identify" message, completes with it and stops:
    nothing is written and no search is made. *)
Theorem no_items_ends_gracefully
    (data : ChatMessage) (st : Store) (key : str) (content : option str)
    (ingredients : pyval) :
  variables_get (variables data) OPENAI_API_KEY = Some key →
  key ≠ [] →
  lower (strip (message data)) ∉ greetings →
  first_choice W data = Ok content →
  _extract_json_array (raw_content content) = Ok ingredients →
  normalize ingredients = [] →
  (process_message W data st).2
  = opening_events data
    ++ [StreamChunk no_ingredients_msg; CompleteResponse no_ingredients_msg].
Proof.
  intros Hkey Hne Hgreet Hmodel Hextract Hnone.
  destruct (process_message_body_run data st key Hkey Hne Hgreet) as [st1 Hrun].
  rewrite Hmodel, Hextract, Hnone in Hrun.
  by apply (process_message_after_return _ _ st1 _ tt).
Qed.

(** X3: when the write of [ingredients.txt] raises, the turn ends in
    [send_error] right after the attempt: no item is streamed and no
    search is made. *)
Theorem file_failure_ends_in_error
    (data : ChatMessage) (st : Store) (key : str) (content : option str)
    (ingredients : pyval) (e : exn) :
  variables_get (variables data) OPENAI_API_KEY = Some key →
  key ≠ [] →
  lower (strip (message data)) ∉ greetings →
  first_choice W data = Ok content →
  _extract_json_array (raw_content content) = Ok ingredients →
  normalize ingredients ≠ [] →
  write_text_file W (u "/tmp/ingredients.txt")
    (ingredients_file (normalize ingredients)) = Raise e →
  (process_message W data st).2
  = opening_events data
    ++ [FileWrite (u "/tmp/ingredients.txt") (ingredients_file (normalize ingredients));
        SendError (u "Error processing message: " ++ exn_str e)].
Proof.
  intros Hkey Hne Hgreet Hmodel Hextract Hsome Hwrite.
  destruct (process_message_body_run data st key Hkey Hne Hgreet) as [st1 Hrun].
  rewrite Hmodel, Hextract in Hrun.
  destruct (normalize ingredients) as [|ing rest]; [done|].
  cbv zeta in Hrun. rewrite Hwrite in Hrun.
  rewrite (process_message_after_raise _ _ st1 _ e Hrun).
  by rewrite <- app_assoc.
Qed.

(** X4: a turn that finds items and can write them makes these calls in
    this order: the acknowledgment, the model call, the write of one item
    per line, the header chunk, one chunk per item, the count chunk, then
    for each item its progress chunk, its search and its result chunk,
    and last the completion with the composed response. *)
Theorem successful_turn_trace
    (data : ChatMessage) (st : Store) (key : str) (content : option str)
    (ingredients : pyval) :
  variables_get (variables data) OPENAI_API_KEY = Some key →
  key ≠ [] →
  lower (strip (message data)) ∉ greetings →
  first_choice W data = Ok content →
  _extract_json_array (raw_content content) = Ok ingredients →
  normalize ingredients ≠ [] →
  write_text_file W (u "/tmp/ingredients.txt")
    (ingredients_file (normalize ingredients)) = Ok tt →
  let normalized := normalize ingredients in
  (process_message W data st).2
  = opening_events data
    ++ FileWrite (u "/tmp/ingredients.txt") (ingredients_file normalized)
    :: listing_events normalized
    ++ concat (map (item_events W data) normalized)
    ++ [CompleteResponse (join nl (response_lines W data normalized))].
Proof.
  intros Hkey Hne Hgreet Hmodel Hextract Hsome Hwrite normalized.
  destruct (process_message_body_run data st key Hkey Hne Hgreet) as [st1 Hrun].
  rewrite Hmodel, Hextract in Hrun. subst normalized.
  destruct (normalize ingredients) as [|ing rest] eqn:Hn; [done|].
  cbv zeta in Hrun. rewrite Hwrite in Hrun.
  destruct (carrefour_flow_run W data (ing :: rest) st1) as [st2 Hflow].
  rewrite Hflow in Hrun.
  rewrite (process_message_after_return _ _ _ _ _ Hrun).
  rewrite final_response_lines by done. reflexivity.
Qed.

(** X5: a turn whose credential set has no [SERPER_API_KEY], or has it
    empty, still runs the loop over every item and completes: each
    search raises before any request, each item is reported as "No
    encontrado", and the outcome does not depend on the world. *)
Theorem missing_search_key_reports_not_found
    (data : ChatMessage) (normalized : list str) (st : Store) :
  SearchHandler.key_present
    (variables_get (variables data) SearchHandler.SERPER_API_KEY) = None →
  (∀ ing,
     SearchHandler.serper_first_link W (carrefour_query ing) (variables data)
     = Raise SearchHandler.missing_serper_key) ∧
  ∃ st',
    carrefour_flow W data normalized st
    = (Ok tt, st',
       concat (map not_found_events normalized)
       ++ [CompleteResponse
             (final_response normalized
                (results_header
                 :: map (fun ing => u "- " ++ ing ++ u ": " ++ not_found) normalized))]).
Proof.
  intros Hkey.
  assert (∀ ing,
            SearchHandler.serper_first_link W (carrefour_query ing) (variables data)
            = Raise SearchHandler.missing_serper_key) as Hraise.
  { intros ing. unfold SearchHandler.serper_first_link. by rewrite Hkey. }
  split; [exact Hraise|].
  destruct (carrefour_flow_run W data normalized st) as [st' Hflow].
  exists st'. rewrite Hflow.
  assert (∀ ing, link_of W data ing = PNone) as Hlink.
  { intros ing. unfold link_of. by rewrite Hraise. }
  assert (map (item_events W data) normalized = map not_found_events normalized) as ->.
  { apply map_ext. intros ing. unfold item_events, not_found_events.
    by rewrite Hlink. }
  assert (map (fun ing => result_line ing (link_of W data ing)) normalized
          = map (fun ing => u "- " ++ ing ++ u ": " ++ not_found) normalized) as ->.
  { apply map_ext. intros ing. by rewrite Hlink. }
  reflexivity.
Qed.

End TurnPaths.

(** ** Normalizing twice *)

Lemma first_seen_all (key : str -> str) seen l :
  NoDup (key <$> l) → (∀ x, x ∈ l → key x ∉ seen) →
  first_seen key seen l = l.
Proof.
  revert seen. induction l as [|x l IH]; intros seen Hnd Hfresh; [done|].
  rewrite fmap_cons in Hnd. apply NoDup_cons in Hnd as [Hx Hnd].
  cbn [first_seen]. rewrite bool_decide_eq_false_2 by (apply Hfresh; by left).
  f_equal. apply IH; [done|].
  intros y Hy [Heq%elem_of_singleton | Hin]%elem_of_union.
  - apply Hx. rewrite <- Heq. by apply list_elem_of_fmap_2.
  - apply (Hfresh y); [by right|done].
Qed.

Section NormalizeTwice.
Context `{Python}.
Import Main.

Lemma candidate_names_of_names names :
  (∀ name, name ∈ names → name ≠ [] ∧ strip name = name) →
  candidate_names (PStr <$> names) = names.
Proof.
  unfold candidate_names. induction names as [|name names IH]; intros Hall; [done|].
  destruct (Hall name) as [Hne Hstrip]; [by left|].
  cbn [fmap list_fmap omap list_omap item_name]. rewrite Hstrip.
  rewrite filter_cons_True by done. f_equal.
  apply IH. intros n Hn. apply Hall. by right.
Qed.

(** X6: normalizing is idempotent: the normalized list, given back as a
    list of strings, normalizes to itself. *)
Theorem normalize_idempotent (ingredients : pyval) :
  normalize (PList (PStr <$> normalize ingredients)) = normalize ingredients.
Proof.
  rewrite (normalize_first_seen (PList _)).
  rewrite candidate_names_of_names.
  - apply first_seen_all.
    + rewrite normalize_first_seen. apply first_seen_NoDup.
    + intros x _. apply not_elem_of_empty.
  - intros name. rewrite normalize_first_seen. intros Hin%first_seen_elem.
    apply candidate_names_elem in Hin as (Hne & item & _ & Hname).
    destruct (item_name_accepted _ _ Hname) as [_ Htrim].
    split; [done|by apply trimmed_strip].
Qed.

End NormalizeTwice.

(** ** The first link of a search *)

Section FirstLink.
Context `{Python} (W : World).
Import SearchHandler.

(** X7: [serper_first_link] raises the missing-key error, before any
    request, when [SERPER_API_KEY] is absent or empty, and hands on what
    the request raises.  On an object response it gives [None] when
    [organic] is missing or empty, and otherwise the [link] of the first
    result alone: [None] when that result has no link, whatever the later
    results hold. *)
Theorem first_link_outcomes (query : str) (variables : list (str * str)) :
  (key_present (variables_get variables SERPER_API_KEY) = None →
     serper_first_link W query variables = Raise missing_serper_key) ∧
  (∀ api_key,
     key_present (variables_get variables SERPER_API_KEY) = Some api_key →
     let response :=
       http_post_json W (u "https://google.serper.dev/search") api_key
         (first_link_payload query) in
     (∀ e, response = Raise e → serper_first_link W query variables = Raise e) ∧
     (∀ d, response = Ok (PDict d) →
        assoc d (u "organic") = None
        ∨ (∃ v, assoc d (u "organic") = Some v ∧ truthy v = false) →
        serper_first_link W query variables = Ok PNone) ∧
     (∀ d first rest, response = Ok (PDict d) →
        assoc d (u "organic") = Some (PList (PDict first :: rest)) →
        serper_first_link W query variables
        = Ok (match assoc first (u "link") with Some link => link | None => PNone end))).
Proof.
  unfold serper_first_link. split.
  - by intros ->.
  - intros api_key ->. cbv zeta.
    change (PDict [(u "q", PStr query); (u "num", PInt 5)])
      with (first_link_payload query).
    split_and!.
    + by intros e ->.
    + intros d -> Hnone. unfold mbind, res_bind, dict_get, py_or.
      destruct Hnone as [-> | (v & -> & Hv)]; [reflexivity|]. by rewrite Hv.
    + intros d first rest -> Horganic. unfold mbind, res_bind, dict_get, py_or.
      rewrite Horganic. reflexivity.
Qed.

End FirstLink.

(** ** The result list of [google_search] *)

Lemma slice_to_fmap {A B} (f : A → B) (l : list A) (n : Z) :
  slice_to (f <$> l) n = f <$> slice_to l n.
Proof. unfold slice_to. rewrite length_fmap. by destruct (0 <=? n)%Z; rewrite fmap_take. Qed.

Lemma slice_to_length {A} (l : list A) (n : Z) :
  (0 ≤ n)%Z → length (slice_to l n) = Nat.min (Z.to_nat n) (length l).
Proof.
  intros Hn. unfold slice_to.
  rewrite (proj2 (Z.leb_le 0 n) Hn). apply length_take.
Qed.

Section ResultList.
Context `{Python} (W : World).
Import SearchHandler.

Lemma format_result_record i result :
  format_result i (PDict result) = Ok (result_entry i result).
Proof. reflexivity. Qed.

Lemma format_results_records i results :
  format_results i (PDict <$> results)
  = Ok (imap (fun k result => result_entry (i + k) result) results).
Proof.
  revert i. induction results as [|result results IH]; intros i; [reflexivity|].
  cbn [fmap list_fmap format_results imap]. rewrite format_result_record.
  change (list_fmap _ _ PDict results) with (PDict <$> results).
  unfold mbind at 1, res_bind at 1. rewrite IH.
  unfold mbind, res_bind, mret, res_ret. rewrite Nat.add_0_r. do 2 f_equal.
  apply imap_ext. intros k result' _. simpl. f_equal. lia.
Qed.

(** X8: with the key present and an object response, [google_search]
    answers "No results found" when the response has no [organic] field,
    and otherwise lists the first [num_results] results of [organic] in
    order, numbered from 1, each with its title, snippet and link or their
    defaults; the request asks for at most 10 results. *)
Theorem google_search_lists_results
    (query api_key : str) (num_results : Z) (vars : list (str * str))
    (d : list (str * pyval)) :
  vars ≠ [] →
  key_present (variables_get vars SERPER_API_KEY) = Some api_key →
  http_post_json W (u "https://google.serper.dev/search") api_key
    (search_payload query num_results) = Ok (PDict d) →
  (assoc d (u "organic") = None →
     google_search W query num_results (Some vars)
     = Ok (search_header query ++ u "No results found for your search query.")) ∧
  (∀ results,
     assoc d (u "organic") = Some (PList (PDict <$> results)) →
     google_search W query num_results (Some vars)
     = Ok (search_header query
           ++ match slice_to results num_results with
              | [] => u "No results found for your search query."
              | shown =>
                join nl (imap (fun i result => result_entry (S i) result) shown)
              end)) ∧
  (∀ results : list (list (str * pyval)),
     (0 ≤ num_results)%Z →
     length (slice_to results num_results)
     = Nat.min (Z.to_nat num_results) (length results)).
Proof.
  intros Hvars Hkey Hpost.
  assert (google_search W query num_results (Some vars)
          = try_except
              (has_organic ← py_in (u "organic") (PDict d);
               results ←
                 (if has_organic : bool then
                    organic ← py_getitem (PDict d) (u "organic");
                    items ← py_slice_items organic num_results;
                    format_results 1 items
                  else mret []);
               match results with
               | [] => mret (search_header query
                             ++ u "No results found for your search query.")
               | _ => mret (search_header query ++ join nl results)
               end)
              (fun e => mret (search_error e))) as ->.
  { unfold google_search, google_search_body.
    destruct vars as [|v vars]; [done|]. rewrite Hkey.
    change (PDict [(u "q", PStr query); (u "num", PInt (Z.min num_results 10))])
      with (search_payload query num_results).
    by rewrite Hpost. }
  unfold py_in, py_getitem. split_and!.
  - intros ->. reflexivity.
  - intros results ->.
    rewrite bool_decide_eq_true_2 by (by eexists).
    unfold mbind at 1 2 3, res_bind at 1 2 3. cbn [py_slice_items].
    unfold mbind, res_bind. rewrite slice_to_fmap, format_results_records.
    unfold try_except, mret, res_ret.
    destruct (slice_to results num_results) as [|r shown]; reflexivity.
  - intros results Hn. by apply slice_to_length.
Qed.

End ResultList.

(** ** Menus in parts *)

Lemma lstrip_blank s : blank s = true → lstrip s = [].
Proof.
  induction s as [|c s IH]; [done|]. simpl.
  destruct (is_space c); [exact IH|done].
Qed.

Lemma strip_blank s : blank s = true → strip s = [].
Proof. intros Hs. unfold strip. by rewrite lstrip_blank. Qed.

(** A boundary between two texts ends the last line of the first and
    adds at most an empty line. *)
Lemma splitlines_from_newline t1 t2 cur :
  ∃ gap, (gap = [] ∨ gap = [[]])
    ∧ splitlines_from (t1 ++ 10 :: t2) cur
      = splitlines_from t1 cur ++ gap ++ splitlines_from t2 [].
Proof.
  remember (length t1) as n eqn:Hn. revert t1 cur Hn.
  induction n as [n IH] using lt_wf_ind. intros t1 cur Hn.
  assert (∀ t, splitlines_from (10 :: t) [] = [] :: splitlines_from t []) as Hnl.
  { intros t. cbn. by destruct t. }
  destruct t1 as [|c r].
  - cbn [app]. destruct cur as [|a cur].
    + exists [[]]. split; [by right|]. by rewrite Hnl.
    + exists []. split; [by left|]. cbn. by destruct t2.
  - cbn [app splitlines_from]. destruct (is_linebreak c) eqn:Hc.
    + destruct r as [|d r'].
      * cbn [app]. destruct (N.eqb_spec c 13) as [->|Hcr].
        -- exists []. split; [by left|]. reflexivity.
        -- exists [[]]. split; [by right|].
           cbn [andb]. rewrite Hnl. reflexivity.
      * cbn [app]. destruct ((c =? 13) && (d =? 10)).
        -- destruct (IH (length r') ltac:(subst n; simpl; lia) r' [] eq_refl)
             as (gap & Hgap & ->).
           exists gap. by split.
        -- destruct (IH (length (d :: r')) ltac:(subst n; simpl; lia) (d :: r') [] eq_refl)
             as (gap & Hgap & Heq).
           exists gap. split; [done|]. cbn [app] in Heq. by rewrite Heq.
    + destruct (IH (length r) ltac:(subst n; simpl; lia) r (c :: cur) eq_refl)
        as (gap & Hgap & ->).
      exists gap. by split.
Qed.

Section FirstSeenParts.
Variable key : str -> str.

Lemma first_seen_app seen a b :
  first_seen key seen (a ++ b)
  = first_seen key seen a
    ++ first_seen key (seen ∪ list_to_set (key <$> a)) b.
Proof.
  revert seen. induction a as [|x a IH]; intros seen.
  - cbn. by rewrite (right_id_L ∅ (∪)).
  - cbn [app first_seen]. case_bool_decide as Hx; rewrite IH.
    + do 2 f_equal. rewrite fmap_cons, list_to_set_cons. set_solver.
    + cbn [app]. do 3 f_equal. rewrite fmap_cons, list_to_set_cons. set_solver.
Qed.

Lemma first_seen_filter (extra seen : gset str) l :
  first_seen key (extra ∪ seen) l
  = filter (fun x => key x ∉ extra) (first_seen key seen l).
Proof.
  revert seen. induction l as [|x l IH]; intros seen; [done|].
  cbn [first_seen]. destruct (decide (key x ∈ seen)) as [Hs|Hs].
  - rewrite !bool_decide_eq_true_2 by set_solver. apply IH.
  - rewrite (bool_decide_eq_false_2 (key x ∈ seen)) by done.
    destruct (decide (key x ∈ extra)) as [He|He].
    + rewrite bool_decide_eq_true_2 by set_solver.
      rewrite filter_cons_False by (intros Hn; by apply Hn).
      rewrite <- IH. f_equal. set_solver.
    + rewrite bool_decide_eq_false_2 by set_solver.
      rewrite filter_cons_True by done. f_equal.
      rewrite <- IH. f_equal. set_solver.
Qed.

Lemma first_seen_keys seen l x :
  key x ∈ key <$> first_seen key seen l → key x ∈ key <$> l.
Proof.
  intros (y & Hy & Hin%first_seen_elem)%list_elem_of_fmap.
  rewrite Hy. by apply list_elem_of_fmap_2.
Qed.

End FirstSeenParts.

Lemma filter_not_self (l : list str) : filter (fun x => x ∉ l) l = [].
Proof.
  assert (∀ k : list str, (∀ x, x ∈ k → x ∈ l) → filter (fun x => x ∉ l) k = []) as Hk.
  { induction k as [|x k IH]; intros Hsub; [done|].
    rewrite filter_cons_False by (intros Hn; apply Hn, Hsub; by left).
    apply IH. intros y Hy. apply Hsub. by right. }
  by apply Hk.
Qed.

Section MenuParts.
Context `{Python}.
Import SearchHandler.

Lemma clean_line_blank raw : blank raw = true → clean_line raw = None.
Proof.
  intros Hraw. unfold clean_line, candidate. rewrite strip_blank by done.
  assert (too_short (strip_bullets []) = true) as -> by (vm_compute; reflexivity).
  reflexivity.
Qed.

Lemma cleaned_lines_newline t1 t2 :
  omap clean_line (splitlines (t1 ++ nl ++ t2))
  = omap clean_line (splitlines t1) ++ omap clean_line (splitlines t2).
Proof.
  unfold splitlines, nl, NL. cbn [app].
  destruct (splitlines_from_newline t1 t2 []) as (gap & Hgap & ->).
  rewrite !omap_app. f_equal.
  destruct Hgap as [-> | ->]; [done|].
  cbn [omap list_omap]. by rewrite clean_line_blank.
Qed.

(** X9: every item of a parsed menu is trimmed and has at least two
    characters, and a text of blank lines only yields no item. *)
Theorem menu_items_are_trimmed_names (menu_text : str) :
  (∀ item, item ∈ _parse_menu_items menu_text →
     strip item = item ∧ (2 ≤ len item)%nat ∧ blank item = false) ∧
  (Forall (fun raw => blank raw = true) (splitlines menu_text) →
     _parse_menu_items menu_text = []).
Proof.
  rewrite parse_menu_items_first_seen. split.
  - intros item Hin%first_seen_elem.
    apply list_elem_of_omap in Hin as (raw & _ & Hclean).
    apply clean_line_inv in Hclean as (line & _ & -> & _ & _ & _ & Hshort).
    unfold too_short in Hshort. apply Nat.ltb_ge in Hshort.
    split_and!; [apply strip_strip|done|].
    apply trimmed_not_blank; [apply strip_trimmed|].
    intros Hnil. rewrite Hnil in Hshort. simpl in Hshort. lia.
  - intros Hblank.
    assert (omap clean_line (splitlines menu_text) = []) as ->; [|done].
    induction Hblank as [|raw lines Hraw _ IH]; [done|].
    cbn [omap list_omap]. by rewrite clean_line_blank.
Qed.

(** X10: parsing two menu texts joined by a newline gives the items of
    the first followed by the items of the second that the first does not
    have; so a text joined to itself parses as the text alone. *)
Theorem parse_menu_items_in_parts (t1 t2 : str) :
  _parse_menu_items (t1 ++ nl ++ t2)
  = _parse_menu_items t1
    ++ filter (fun item => item ∉ _parse_menu_items t1) (_parse_menu_items t2)
  ∧ _parse_menu_items (t1 ++ nl ++ t1) = _parse_menu_items t1.
Proof.
  assert (∀ a b, _parse_menu_items (a ++ nl ++ b)
                 = _parse_menu_items a
                   ++ filter (fun item => item ∉ _parse_menu_items a)
                        (_parse_menu_items b)) as Hparts.
  { intros a b. rewrite !parse_menu_items_first_seen, cleaned_lines_newline.
    rewrite first_seen_app. f_equal.
    rewrite (comm_L (∪) ∅), (first_seen_filter id _ ∅).
    apply list_filter_iff. intros x.
    change (id x) with x. rewrite list_fmap_id, elem_of_list_to_set. split.
    - intros Hx Hin. apply Hx. by eapply first_seen_elem.
    - intros Hx Hin. apply Hx.
      destruct (first_seen_covers id ∅ _ x Hin) as [Hs|Hs]; [set_solver|].
      by rewrite list_fmap_id in Hs. }
  split; [apply Hparts|].
  rewrite Hparts, filter_not_self. apply app_nil_r.
Qed.

End MenuParts.

(** ** The menu gallery *)

Section Bystanders.
Import Main.

Lemma bystander_ret {A} (a : A) : bystander (mret a : Act A).
Proof. intros st. split; [done|constructor]. Qed.

Lemma bystander_lift {A} (r : Res A) : bystander (lift r).
Proof. intros st. split; [done|constructor]. Qed.

Lemma bystander_emit e : terminal e = false → bystander (emit e).
Proof. intros He st. split; [done|by repeat constructor]. Qed.

Lemma bystander_stream_chunk text : bystander (stream_chunk text).
Proof. by apply bystander_emit. Qed.

Lemma bystander_bind {A B} (m : Act A) (f : A → Act B) :
  bystander m → (∀ a, bystander (f a)) → bystander (m ≫= f).
Proof.
  intros Hm Hf st. specialize (Hm st). unfold mbind, act_bind.
  destruct (m st) as [[[a|e] st1] t1]; cbn [fst snd] in *; [|done].
  destruct Hm as [-> Hq]. specialize (Hf a st).
  destruct (f a st) as [[r st2] t2]; cbn [fst snd] in *.
  destruct Hf as [-> Hq2]. split; [done|by apply quiet_app].
Qed.

Lemma bystander_try {A} (m : Act A) (h : exn → Act A) :
  bystander m → (∀ e, bystander (h e)) → bystander (act_try m h).
Proof.
  intros Hm Hh st. specialize (Hm st). unfold act_try.
  destruct (m st) as [[[a|e] st1] t1]; cbn [fst snd] in *; [done|].
  destruct Hm as [-> Hq]. specialize (Hh e st).
  destruct (h e st) as [[r st2] t2]; cbn [fst snd] in *.
  destruct Hh as [-> Hq2]. split; [done|by apply quiet_app].
Qed.

End Bystanders.

Section Gallery.
Context `{Python}.
Import Main SearchHandler Dispatch.

Lemma clamp_int (n : Z) :
  clamp_results_per_item (PInt n) = Ok (PInt (Z.max 1 (Z.min n 3))).
Proof.
  unfold clamp_results_per_item, py_or, py_min, py_max, exceeds, mbind, res_bind,
    mret, res_ret, truthy.
  destruct (Z.eqb_spec n 0) as [->|Hn]; cbn [negb]; [reflexivity|].
  destruct (Z.ltb_spec 3 n) as [H3|H3]; cbv beta iota.
  - rewrite Z.min_r, Z.max_r by lia. reflexivity.
  - destruct (Z.ltb_spec 1 n) as [H1|H1].
    + rewrite Z.min_l, Z.max_r by lia. reflexivity.
    + rewrite Z.min_l, Z.max_l by lia. reflexivity.
Qed.

Lemma clamp_false (v : pyval) :
  truthy v = false → clamp_results_per_item v = Ok (PInt 1).
Proof.
  intros Hv. unfold clamp_results_per_item, py_or. rewrite Hv. reflexivity.
Qed.

(** X11: the number of images asked per item is clamped to 1..3: an
    integer [n] gives [max 1 (min n 3)] attempts, and a missing or false
    value ([None], 0, the empty string) gives one attempt. *)
Theorem results_per_item_is_clamped :
  (∀ n : Z,
     ∃ times,
       (results ← clamp_results_per_item (PInt n); py_range results) = Ok times
       ∧ times = Z.to_nat (Z.max 1 (Z.min n 3))
       ∧ (1 ≤ times ≤ 3)%nat) ∧
  (∀ v, truthy v = false →
     (results ← clamp_results_per_item v; py_range results) = Ok 1%nat).
Proof.
  split.
  - intros n. exists (Z.to_nat (Z.max 1 (Z.min n 3))).
    rewrite clamp_int. split_and!; [reflexivity|reflexivity|lia|lia].
  - intros v Hv. by rewrite clamp_false.
Qed.

Lemma image_attempts_run Wi variables idx item n times found_any combined st :
  let images := leading_images Wi variables item n times in
  image_attempts Wi variables idx item n times found_any combined st
  = (Ok (found_any || bool_decide (images ≠ []),
         combined ++ map (gallery_entry idx item) images),
     st, attempt_events item images times).
Proof.
  cbv zeta. revert n found_any combined.
  induction times as [|times IH]; intros n found_any combined.
  - cbn. by rewrite orb_false_r, app_nil_r.
  - cbn [image_attempts leading_images]. unfold image_found.
    unfold mbind at 1, act_bind at 1, emit at 1.
    destruct (_serper_image_search (Wi n) item variables) as [image_url|e].
    + destruct (truthy image_url).
      * unfold mbind at 1, act_bind at 1, stream_chunk at 1, emit at 1.
        rewrite IH. unfold attempt_events. cbn [map concat length app].
        rewrite orb_true_r, <- app_assoc.
        change (S (length ?l) <? S times)%nat with (length l <? times)%nat.
        reflexivity.
      * cbn. by rewrite orb_false_r, app_nil_r.
    + cbn. by rewrite orb_false_r, app_nil_r.
Qed.

Lemma leading_images_length Wi variables item n times :
  (length (leading_images Wi variables item n times) ≤ times)%nat.
Proof.
  revert n. induction times as [|times IH]; intros n; [done|].
  cbn [leading_images]. destruct (image_found (Wi n) variables item); simpl; [|lia].
  specialize (IH (S n)). lia.
Qed.

(** X12: the attempts for an item stop at the first search that raises or
    finds no image: one image chunk and one summary line per image found
    before that, at most [times] searches, and no image after a miss. *)
Theorem image_attempts_stop_at_first_miss
    (Wi : nat -> World) (variables : list (str * str)) (idx : nat) (item : str)
    (times : nat) (combined : list str) (st : Store) :
  let images := leading_images Wi variables item 0 times in
  image_attempts Wi variables idx item 0 times false combined st
  = (Ok (bool_decide (images ≠ []),
         combined ++ map (gallery_entry idx item) images),
     st, attempt_events item images times) ∧
  (length images ≤ times)%nat ∧
  count is_search (attempt_events item images times)
  = Nat.min (S (length images)) times ∧
  (∀ k, (k < times)%nat → image_found (Wi k) variables item = None →
     (length images ≤ k)%nat).
Proof.
  cbv zeta. split_and!.
  - apply (image_attempts_run Wi variables idx item 0 times false combined st).
  - apply leading_images_length.
  - unfold attempt_events. rewrite count_app.
    assert (∀ l : list pyval,
              count is_search
                (concat (map (fun image_url =>
                                [SearchCall item; StreamChunk (image_tag image_url)]) l))
              = length l) as ->.
    { induction l as [|x l IH]; [done|].
      cbn [map concat app]. unfold count in *. cbn [List.filter is_search length].
      by rewrite IH. }
    pose proof (leading_images_length Wi variables item 0 times) as Hlen.
    destruct (Nat.ltb_spec (length (leading_images Wi variables item 0 times)) times).
    + unfold count. cbn [List.filter is_search length]. lia.
    + unfold count. cbn [List.filter length]. lia.
  - assert (∀ n k t, (k < t)%nat → image_found (Wi (n + k)%nat) variables item = None →
              (length (leading_images Wi variables item n t) ≤ k)%nat) as Hgen.
    { intros n k t. revert n k. induction t as [|t IH]; intros n k Hk Hmiss; [lia|].
      cbn [leading_images]. destruct k as [|k].
      - rewrite Nat.add_0_r in Hmiss. rewrite Hmiss. simpl. lia.
      - destruct (image_found (Wi n) variables item); [|simpl; lia].
        cbn [length]. apply le_n_S. apply IH; [lia|].
        by replace (S n + k)%nat with (n + S k)%nat by lia. }
    intros k Hk Hmiss. by apply (Hgen 0%nat).
Qed.

Lemma imap_shift {A B} (F : nat → A → B) (idx : nat) (l : list A) :
  imap (fun j x => F (S idx + j)%nat x) l
  = imap ((fun j x => F (idx + j)%nat x) ∘ S) l.
Proof. apply imap_ext. intros j x _. simpl. f_equal. lia. Qed.

Lemma gallery_loop_run Wg variables (k : Z) idx items combined st :
  let times := Z.to_nat k in
  gallery_loop Wg variables (PInt k) idx items combined st
  = (Ok (combined
         ++ concat (imap (fun j item =>
                            gallery_item_entries Wg variables times (idx + j) item)
                      items)),
     st,
     concat (imap (fun j item =>
                     gallery_item_events Wg variables times (idx + j) item)
               items)).
Proof.
  cbv zeta. revert idx combined.
  induction items as [|item items IH]; intros idx combined.
  - cbn. by rewrite app_nil_r.
  - cbn [gallery_loop imap concat].
    unfold mbind, act_bind, stream_chunk, emit, lift. cbn [py_range].
    cbv beta iota zeta.
    rewrite (image_attempts_run (Wg idx) variables idx item 0 (Z.to_nat k) false combined st).
    cbv beta iota zeta. cbn [orb].
    unfold gallery_item_events at 1, gallery_item_entries at 1. rewrite Nat.add_0_r.
    destruct (leading_images (Wg idx) variables item 0 (Z.to_nat k)) as [|image images].
    + rewrite bool_decide_eq_false_2 by (intros Hn; by apply Hn).
      cbv beta iota. rewrite IH, !imap_shift.
      cbn [app]. by rewrite <- !app_assoc.
    + rewrite bool_decide_eq_true_2 by done.
      unfold mret, act_ret. cbv beta iota. rewrite IH, !imap_shift.
      cbn [app]. rewrite app_nil_r. by rewrite <- !app_assoc.
Qed.

Lemma parse_menu_value_text text :
  parse_menu_value (PStr text) = Ok (_parse_menu_items text).
Proof. by destruct text. Qed.

(** X13: for a menu text with items, an integer [results_per_item] and a
    file that can be written, [build_menu_gallery] writes one item per
    line, announces the file, and for each item in order streams its
    number, then the images its attempts find, or a warning when they find
    none.  It returns the header and one line per image found, in the
    same order, and raises nothing whatever the searches do. *)
Theorem gallery_summary_and_trace
    (Wg : nat -> nat -> World) (text : str) (variables : list (str * str))
    (n : Z) (st : Store) :
  _parse_menu_items text ≠ [] →
  write_text_file (Wg 0 0)%nat (u "/tmp/menu.txt")
    (menu_file (_parse_menu_items text)) = Ok tt →
  let items := _parse_menu_items text in
  let times := Z.to_nat (Z.max 1 (Z.min n 3)) in
  build_menu_gallery Wg (PStr text) variables (PInt n) st
  = (Ok (join nl
           (gallery_header items
            :: concat (imap (fun j item =>
                               gallery_item_entries Wg variables times (S j) item)
                         items))),
     st,
     FileWrite (u "/tmp/menu.txt") (menu_file items)
     :: StreamChunk (nl ++ u "🗂️ Saved menu items to menu.txt ("
                     ++ str_of_nat (len items) ++ u " items)")
     :: concat (imap (fun j item =>
                        gallery_item_events Wg variables times (S j) item)
                  items)).
Proof.
  intros Hitems Hwrite. cbv zeta. unfold build_menu_gallery, _write_menu_file.
  rewrite clamp_int, parse_menu_value_text.
  destruct (_parse_menu_items text) as [|item items] eqn:Hparse; [done|].
  unfold menu_file in *.
  unfold mbind, act_bind, lift, stream_chunk, emit, mret, act_ret.
  cbv beta iota zeta. rewrite Hwrite.
  cbv beta iota zeta. rewrite gallery_loop_run. cbv beta iota zeta.
  cbn [app]. rewrite app_nil_r. reflexivity.
Qed.

(** X14: [build_menu_gallery] ends early in two cases.  A menu text
    without items gives the fixed message and makes no call at all; a
    write of [menu.txt] that raises is not caught: the gallery raises
    after the attempt, before any chunk and any search. *)
Theorem gallery_early_exits
    (Wg : nat -> nat -> World) (text : str) (variables : list (str * str))
    (n : Z) (st : Store) :
  (_parse_menu_items text = [] →
     build_menu_gallery Wg (PStr text) variables (PInt n) st
     = (Ok no_menu_items, st, [])) ∧
  (∀ e,
     _parse_menu_items text ≠ [] →
     write_text_file (Wg 0 0)%nat (u "/tmp/menu.txt")
       (menu_file (_parse_menu_items text)) = Raise e →
     build_menu_gallery Wg (PStr text) variables (PInt n) st
     = (Raise e, st,
        [FileWrite (u "/tmp/menu.txt") (menu_file (_parse_menu_items text))])).
Proof.
  unfold build_menu_gallery, _write_menu_file.
  rewrite clamp_int, parse_menu_value_text.
  unfold mbind, act_bind, lift, stream_chunk, emit, mret, act_ret.
  cbv beta iota zeta.
  split.
  - intros ->. reflexivity.
  - intros e Hitems Hwrite.
    destruct (_parse_menu_items text) as [|item items] eqn:Hparse; [done|].
    unfold menu_file in *. cbv beta iota zeta. rewrite Hwrite. reflexivity.
Qed.

Lemma range_float f :
  py_range (PFloat f)
  = Raise (Exn TypeError (u "'float' object cannot be interpreted as an integer")).
Proof. vm_compute. reflexivity. Qed.

Lemma float_above_one_is_true f : float_gt f 1 = true → truthy (PFloat f) = true.
Proof.
  destruct f as [m e| |]; [|done|done]. cbn [truthy float_gt].
  destruct (Z.eqb_spec m 0) as [->|]; [|done].
  destruct (0 <=? e)%Z; intros Hgt%Z.ltb_lt; [lia|].
  pose proof (Z.pow_nonneg 2 (- e)). lia.
Qed.

(** X15: a [results_per_item] that is a float above 1 and not above 3
    (2.5, say) passes the clamp unchanged; the gallery
    then writes the file, announces it, streams the number of the first
    item and raises a [TypeError] at [range], before any search. *)
Theorem fractional_results_per_item_raises
    (Wg : nat -> nat -> World) (text : str) (variables : list (str * str))
    (f : pyfloat) (st : Store) (item : str) (rest : list str) :
  float_gt f 3 = false → float_gt f 1 = true →
  _parse_menu_items text = item :: rest →
  write_text_file (Wg 0 0)%nat (u "/tmp/menu.txt") (menu_file (item :: rest)) = Ok tt →
  clamp_results_per_item (PFloat f) = Ok (PFloat f) ∧
  build_menu_gallery Wg (PStr text) variables (PFloat f) st
  = (Raise (Exn TypeError (u "'float' object cannot be interpreted as an integer")),
     st,
     [FileWrite (u "/tmp/menu.txt") (menu_file (item :: rest));
      StreamChunk (nl ++ u "🗂️ Saved menu items to menu.txt ("
                   ++ str_of_nat (len (item :: rest)) ++ u " items)");
      StreamChunk (nl ++ str_of_nat 1 ++ u ". " ++ item)]).
Proof.
  intros H3 H1 Hparse Hwrite.
  pose proof (float_above_one_is_true f H1) as Htrue.
  assert (clamp_results_per_item (PFloat f) = Ok (PFloat f)) as Hclamp.
  { unfold clamp_results_per_item, py_or. rewrite Htrue.
    unfold py_min, py_max, exceeds, mbind, res_bind, mret, res_ret.
    rewrite H3. cbv beta iota. by rewrite H1. }
  split; [exact Hclamp|].
  unfold build_menu_gallery, _write_menu_file.
  rewrite Hclamp, parse_menu_value_text, Hparse.
  unfold menu_file in *.
  unfold mbind, act_bind, lift, stream_chunk, emit, mret, act_ret.
  cbv beta iota zeta. rewrite Hwrite.
  cbv beta iota zeta. cbn [gallery_loop]. rewrite range_float.
  unfold mbind, act_bind, lift, stream_chunk, emit, mret, act_ret.
  cbv beta iota zeta. cbn [app]. reflexivity.
Qed.

Lemma bystander_image_attempts Wi variables idx item n times found_any combined :
  bystander (image_attempts Wi variables idx item n times found_any combined).
Proof.
  intros st. rewrite image_attempts_run. cbn [fst snd]. split; [done|].
  unfold attempt_events. apply quiet_app.
  - induction (leading_images Wi variables item n times) as [|x l IH]; [constructor|].
    cbn [map concat]. apply quiet_app; [by repeat constructor|done].
  - destruct (_ <? _)%nat; by repeat constructor.
Qed.

Lemma bystander_gallery_loop Wg variables results_per_item idx items combined :
  bystander (gallery_loop Wg variables results_per_item idx items combined).
Proof.
  revert idx combined. induction items as [|item items IH]; intros idx combined.
  - apply bystander_ret.
  - cbn [gallery_loop].
    apply bystander_bind; [apply bystander_stream_chunk|intros _].
    apply bystander_bind; [apply bystander_lift|intros times].
    apply bystander_bind; [apply bystander_image_attempts|].
    intros [found_any combined'].
    apply bystander_bind; [|intros _; apply IH].
    destruct found_any; [apply bystander_ret|apply bystander_stream_chunk].
Qed.

Lemma bystander_write_menu_file W items target_path :
  bystander (_write_menu_file W items target_path).
Proof.
  unfold _write_menu_file. cbv zeta.
  apply bystander_bind; [by apply bystander_emit|intros _; apply bystander_lift].
Qed.

Lemma bystander_build_menu_gallery Wg menu_text variables results_per_item :
  bystander (build_menu_gallery Wg menu_text variables results_per_item).
Proof.
  unfold build_menu_gallery.
  apply bystander_bind; [apply bystander_lift|intros times].
  apply bystander_bind; [apply bystander_lift|intros items].
  destruct items as [|item items]; [apply bystander_ret|].
  apply bystander_bind; [apply bystander_write_menu_file|intros _].
  apply bystander_bind; [apply bystander_stream_chunk|intros _].
  apply bystander_bind; [apply bystander_gallery_loop|intros combined].
  apply bystander_ret.
Qed.

End Gallery.

(** Runs the binds of an action down to its calls. *)
Ltac run_act :=
  unfold mbind, Main.act_bind, Main.lift, Main.stream_chunk, Main.emit, mret,
    Main.act_ret;
  cbv beta iota zeta.

Section Dispatcher.
Context `{Python}.
Import Main SearchHandler Dispatch.

Lemma google_search_any_returns W query num_results variables :
  ∃ text, google_search_any W query num_results variables = Ok text.
Proof.
  unfold google_search_any.
  destruct (google_search_body_any W query num_results variables);
    by eexists.
Qed.

Lemma google_search_any_typed W query n variables :
  google_search_any W (PStr query) (PInt n) variables
  = google_search W query n variables.
Proof.
  unfold google_search_any, google_search. f_equal.
  unfold google_search_body_any, google_search_body.
  destruct variables as [[|v vars]|]; [done| |done].
  destruct (key_present _) as [key|]; [|done].
  unfold py_min, exceeds, mbind at 1, res_bind at 1, mret, res_ret.
  unfold mbind at 1, res_bind at 1. cbv beta iota.
  assert ((if (10 <? n)%Z then PInt 10 else PInt n) = PInt (Z.min n 10)) as ->.
  { destruct (Z.ltb_spec 10 n); f_equal; lia. }
  cbn [py_str].
  destruct (http_post_json W _ _ _) as [data|e]; [|done].
  unfold mbind, res_bind.
  destruct (py_in _ data) as [[|]|e]; [|done|done].
  destruct (py_getitem data _) as [organic|e]; [|done].
  by destruct organic.
Qed.

Lemma decoded_arguments_raise function_call e :
  decoded_arguments function_call = Raise e →
  function_field function_call (u "arguments") = Raise e
  ∨ ∃ arguments, function_field function_call (u "arguments") = Ok arguments
      ∧ (json_loads_value arguments = Raise e
         ∨ ∃ args, json_loads_value arguments = Ok args
             ∧ ∀ k default, dict_get args k default = Raise e).
Proof.
  unfold decoded_arguments, mbind, res_bind.
  destruct (function_field _ _) as [arguments|e1]; [|intros [= ->]; by left].
  intros Hdec. right. exists arguments. split; [done|]. revert Hdec.
  destruct (json_loads_value arguments) as [args|e2]; [|intros [= ->]; by left].
  intros Hdec. right. exists args. split; [done|]. intros k default.
  destruct args; first [discriminate Hdec | by injection Hdec as <-].
Qed.

Lemma decoded_arguments_ok function_call d :
  decoded_arguments function_call = Ok d →
  ∃ arguments, function_field function_call (u "arguments") = Ok arguments
    ∧ json_loads_value arguments = Ok (PDict d).
Proof.
  unfold decoded_arguments, mbind, res_bind.
  destruct (function_field _ _) as [arguments|e1]; [|done].
  destruct (json_loads_value arguments) as [args|e2] eqn:Hargs; [|done].
  destruct args; try (unfold no_attribute; discriminate).
  intros [= ->]. by exists arguments.
Qed.

Lemma is_str_self s : is_str (PStr s) s = true.
Proof. cbn [is_str]. unfold str_eqb. by apply bool_decide_eq_true_2. Qed.

Lemma gallery_is_no_search :
  is_str (PStr (u "build_menu_gallery")) (u "google_search") = false.
Proof. vm_compute. reflexivity. Qed.

(** X16: a call of a function the dispatcher does not know is announced
    and answered with a Function Error that names it; nothing else is
    called and nothing raises. *)
Theorem unknown_function_is_reported
    (Wc : nat -> nat -> World) (function_call : pyval) (data : ChatMessage)
    (st : Store) (name : pyval) :
  function_field function_call (u "name") = Ok name →
  is_str name (u "google_search") = false →
  is_str name (u "build_menu_gallery") = false →
  execute_function_call Wc function_call data st
  = (Ok (function_error (u "Unknown function: " ++ py_str name)), st,
     [processing_chunk name]).
Proof.
  intros Hname Hg Hb.
  unfold execute_function_call, act_try, execute_function_call_body.
  run_act. rewrite Hname. cbv beta iota zeta. rewrite Hg, Hb.
  reflexivity.
Qed.

Lemma bystander_execute_function_call Wc function_call data :
  bystander (execute_function_call Wc function_call data).
Proof.
  apply bystander_try.
  - unfold execute_function_call_body.
    apply bystander_bind; [apply bystander_lift|intros name].
    apply bystander_bind; [apply bystander_stream_chunk|intros _].
    destruct (is_str name (u "google_search")).
    { do 4 (apply bystander_bind; [apply bystander_lift|intros ?]).
      apply bystander_bind; [apply bystander_stream_chunk|intros _].
      apply bystander_bind; [apply bystander_lift|intros result].
      apply bystander_bind; [apply bystander_stream_chunk|intros _].
      apply bystander_ret. }
    destruct (is_str name (u "build_menu_gallery")); [|apply bystander_ret].
    do 4 (apply bystander_bind; [apply bystander_lift|intros ?]).
    destruct (negb _); [apply bystander_ret|].
    apply bystander_bind; [apply bystander_stream_chunk|intros _].
    apply bystander_bind; [apply bystander_build_menu_gallery|intros summary].
    apply bystander_bind; [apply bystander_stream_chunk|intros _].
    apply bystander_ret.
  - intros e. unfold execution_error.
    apply bystander_bind; [apply bystander_lift|intros name].
    apply bystander_ret.
Qed.

Lemma process_calls_run Wp function_calls data combined_result st :
  process_calls Wp function_calls data combined_result st
  = (Ok (combined_result
         ++ concat (imap (fun i function_call =>
                            call_result (Wp i) function_call data st)
                      function_calls)),
     st,
     concat (imap (fun i function_call =>
                     call_events (Wp i) function_call data st)
               function_calls)).
Proof.
  revert Wp combined_result.
  induction function_calls as [|function_call rest IH]; intros Wp combined_result.
  - cbn [process_calls imap concat]. by rewrite app_nil_r.
  - cbn [process_calls imap concat]. unfold mbind, act_bind, act_try.
    unfold call_result at 1, call_events at 1.
    destruct (bystander_execute_function_call (Wp 0%nat) function_call data st)
      as [Hst _].
    destruct (execute_function_call (Wp 0%nat) function_call data st)
      as [[[result|e] st1] t1]; cbn [fst snd] in *; subst st1.
    + rewrite IH. by rewrite <- app_assoc.
    + unfold mret, act_ret. cbv beta iota zeta. rewrite IH.
      by rewrite <- app_assoc, app_nil_r.
Qed.

(** X17: [execute_function_call] returns a text whenever the name of the
    function can be read from the call.  When it cannot, the handler
    reads the name again and the same exception leaves the function, with
    no call made; [process_function_calls] then renders it as a Function
    Processing Error. *)
Theorem execute_function_call_raises_only_without_name
    (Wc : nat -> nat -> World) (function_call : pyval) (data : ChatMessage)
    (st : Store) :
  (∀ name, function_field function_call (u "name") = Ok name →
     ∃ text, (execute_function_call Wc function_call data st).1.1 = Ok text)
  ∧ (∀ e, function_field function_call (u "name") = Raise e →
       execute_function_call Wc function_call data st = (Raise e, st, [])
       ∧ process_function_calls (fun _ => Wc) [function_call] data st
         = (Ok (processing_error e), st, [])).
Proof.
  split.
  - intros name Hname. unfold execute_function_call, act_try.
    destruct (execute_function_call_body Wc function_call data st)
      as [[[text|e] st1] t1]; [by eexists|].
    unfold execution_error. run_act. rewrite Hname. by eexists.
  - intros e Hname.
    assert (execute_function_call Wc function_call data st = (Raise e, st, []))
      as Hrun.
    { unfold execute_function_call, act_try, execute_function_call_body,
        execution_error.
      run_act. rewrite Hname. reflexivity. }
    split; [exact Hrun|].
    unfold process_function_calls. rewrite process_calls_run.
    cbn [imap concat]. unfold call_result, call_events. rewrite Hrun.
    cbn [fst snd app]. by rewrite app_nil_r.
Qed.

Lemma bystander_process_calls Wp function_calls data combined_result :
  bystander (process_calls Wp function_calls data combined_result).
Proof.
  revert Wp combined_result.
  induction function_calls as [|function_call rest IH]; intros Wp combined_result.
  - apply bystander_ret.
  - cbn [process_calls]. apply bystander_bind.
    + apply bystander_try; [apply bystander_execute_function_call|].
      intros e. apply bystander_ret.
    + intros result. apply IH.
Qed.

Lemma bystander_process_function_calls Wp function_calls data :
  bystander (process_function_calls Wp function_calls data).
Proof.
  unfold process_function_calls.
  destruct function_calls; [apply bystander_ret|apply bystander_process_calls].
Qed.

(** X18: [process_function_calls] never raises and leaves the
    conversation as it is.  Its text is the concatenation, in order, of
    what each call gives, its result or the Function Processing Error of
    the exception it raises, and its calls are those of the calls, in
    order, none of them a completion or an error notification. *)
Theorem process_function_calls_collects_results
    (Wp : nat -> nat -> nat -> World) (function_calls : list pyval)
    (data : ChatMessage) (st : Store) :
  let results :=
    imap (fun i function_call => call_result (Wp i) function_call data st)
      function_calls in
  let events :=
    concat (imap (fun i function_call => call_events (Wp i) function_call data st)
              function_calls) in
  process_function_calls Wp function_calls data st = (Ok (concat results), st, events)
  ∧ quiet events.
Proof.
  cbv zeta.
  assert (process_function_calls Wp function_calls data st
          = (Ok (concat (imap (fun i function_call =>
                                 call_result (Wp i) function_call data st)
                           function_calls)), st,
             concat (imap (fun i function_call =>
                             call_events (Wp i) function_call data st)
                       function_calls))) as Hrun.
  { unfold process_function_calls.
    destruct function_calls as [|function_call rest]; [reflexivity|].
    by rewrite process_calls_run. }
  split; [exact Hrun|].
  destruct (bystander_process_function_calls Wp function_calls data st)
    as [_ Hquiet].
  by rewrite Hrun in Hquiet.
Qed.

(** X19: when the arguments of a [google_search] or [build_menu_gallery]
    call cannot be read (no [arguments], no text, malformed JSON, or
    JSON that is no object), the call is announced and answered with a
    Function Execution Error that names the function and the exception;
    no search is made and no gallery is started. *)
Theorem unreadable_arguments_are_reported
    (Wc : nat -> nat -> World) (function_call : pyval) (data : ChatMessage)
    (st : Store) (name : pyval) (e : exn) :
  function_field function_call (u "name") = Ok name →
  is_str name (u "google_search") || is_str name (u "build_menu_gallery") = true →
  decoded_arguments function_call = Raise e →
  execute_function_call Wc function_call data st
  = (Ok (execution_error_text name e), st, [processing_chunk name]).
Proof.
  intros Hname Hknown Hdec.
  unfold execute_function_call, act_try, execute_function_call_body,
    execution_error.
  run_act. rewrite Hname. cbv beta iota zeta.
  apply decoded_arguments_raise in Hdec
    as [Hargs|(arguments & Hargs & [Hjson|(args & Hjson & Hget)])];
    destruct (is_str name (u "google_search"));
    [| destruct (is_str name (u "build_menu_gallery")); [|done]
     | | destruct (is_str name (u "build_menu_gallery")); [|done]
     | | destruct (is_str name (u "build_menu_gallery")); [|done] ];
    rewrite Hargs; cbv beta iota zeta;
    rewrite ?Hjson; cbv beta iota zeta; rewrite ?Hget; reflexivity.
Qed.

(** X20: a [build_menu_gallery] call without [menu_text], or with a
    false one, is answered with the Function Error that asks for it; the
    gallery is not started: no file is written and no image searched. *)
Theorem gallery_requires_menu_text
    (Wc : nat -> nat -> World) (function_call : pyval) (data : ChatMessage)
    (st : Store) (d : list (str * pyval)) :
  function_field function_call (u "name") = Ok (PStr (u "build_menu_gallery")) →
  decoded_arguments function_call = Ok d →
  truthy (argument d (u "menu_text") (PStr [])) = false →
  execute_function_call Wc function_call data st
  = (Ok (function_error (u "menu_text is required for build_menu_gallery")), st,
     [processing_chunk (PStr (u "build_menu_gallery"))]).
Proof.
  intros Hname Hdec Hmenu.
  apply decoded_arguments_ok in Hdec as (arguments & Hargs & Hjson).
  unfold execute_function_call, act_try, execute_function_call_body.
  run_act. rewrite Hname. cbv beta iota zeta.
  rewrite gallery_is_no_search, is_str_self, Hargs. cbv beta iota zeta.
  rewrite Hjson. cbv beta iota zeta. cbn [dict_get]. cbv beta iota zeta.
  fold (argument d (u "menu_text") (PStr [])). rewrite Hmenu.
  reflexivity.
Qed.

(** X21: a [google_search] call whose arguments can be read always
    returns: the search gives a text whatever the types of [query] and
    [num_results] (default 5), and the call streams the announcement,
    the query and that text, and returns the text. *)
Theorem search_call_streams_its_result
    (Wc : nat -> nat -> World) (function_call : pyval) (data : ChatMessage)
    (st : Store) (d : list (str * pyval)) :
  function_field function_call (u "name") = Ok (PStr (u "google_search")) →
  decoded_arguments function_call = Ok d →
  let query := argument d (u "query") PNone in
  let num_results := argument d (u "num_results") (PInt 5) in
  ∃ result,
    google_search_any (Wc 0 0)%nat query num_results (Some (variables data))
    = Ok result
    ∧ execute_function_call Wc function_call data st
      = (Ok result, st,
         [processing_chunk (PStr (u "google_search"));
          StreamChunk (nl ++ u "🔍 **Searching Google for:** " ++ py_str query);
          StreamChunk result]).
Proof.
  intros Hname Hdec. cbv zeta.
  apply decoded_arguments_ok in Hdec as (arguments & Hargs & Hjson).
  destruct (google_search_any_returns (Wc 0 0)%nat
              (argument d (u "query") PNone)
              (argument d (u "num_results") (PInt 5))
              (Some (variables data))) as [result Hresult].
  exists result. split; [exact Hresult|].
  unfold execute_function_call, act_try, execute_function_call_body.
  run_act. rewrite Hname. cbv beta iota zeta.
  rewrite is_str_self, Hargs. cbv beta iota zeta.
  rewrite Hjson. cbv beta iota zeta. cbn [dict_get]. cbv beta iota zeta.
  fold (argument d (u "query") PNone).
  fold (argument d (u "num_results") (PInt 5)).
  rewrite Hresult. reflexivity.
Qed.

(** X22: a [build_menu_gallery] call with a menu text announces itself
    and the gallery and runs it.  A summary is streamed after the calls
    of the gallery and returned; an exception of the gallery is answered
    with a Function Execution Error, and then no summary is streamed. *)
Theorem gallery_call_runs_the_gallery
    (Wc : nat -> nat -> World) (function_call : pyval) (data : ChatMessage)
    (st : Store) (d : list (str * pyval)) :
  function_field function_call (u "name") = Ok (PStr (u "build_menu_gallery")) →
  decoded_arguments function_call = Ok d →
  truthy (argument d (u "menu_text") (PStr [])) = true →
  let name := PStr (u "build_menu_gallery") in
  let gallery :=
    build_menu_gallery Wc (argument d (u "menu_text") (PStr []))
      (variables data) (argument d (u "results_per_item") (PInt 1)) st in
  let opening :=
    [processing_chunk name; StreamChunk (nl ++ u "📋 **Building menu gallery**")] in
  execute_function_call Wc function_call data st
  = match gallery.1.1 with
    | Ok summary =>
      (Ok summary, st,
       opening ++ gallery.2
       ++ [StreamChunk (nl ++ u "✅ **Menu gallery built**" ++ nl ++ summary)])
    | Raise e => (Ok (execution_error_text name e), st, opening ++ gallery.2)
    end.
Proof.
  intros Hname Hdec Hmenu. cbv zeta.
  apply decoded_arguments_ok in Hdec as (arguments & Hargs & Hjson).
  destruct (bystander_build_menu_gallery Wc
              (argument d (u "menu_text") (PStr [])) (variables data)
              (argument d (u "results_per_item") (PInt 1)) st) as [Hst _].
  unfold execute_function_call, act_try, execute_function_call_body,
    execution_error.
  run_act. rewrite Hname. cbv beta iota zeta.
  rewrite gallery_is_no_search, is_str_self, Hargs. cbv beta iota zeta.
  rewrite Hjson. cbv beta iota zeta. cbn [dict_get]. cbv beta iota zeta.
  fold (argument d (u "menu_text") (PStr [])).
  fold (argument d (u "results_per_item") (PInt 1)).
  rewrite Hmenu. cbn [negb]. cbv beta iota zeta.
  destruct (build_menu_gallery Wc _ _ _ st) as [[[summary|e] st1] t1];
    cbn [fst snd] in *; subst st1.
  - cbn [app]. reflexivity.
  - cbn [app]. rewrite app_nil_r. reflexivity.
Qed.

(** X23: a [num_results] that is no number (the text [5], say, or
    [null]) makes [google_search] fail at [min], before any request: with
    the key present the search returns the Search Error with the
    [TypeError] of the comparison, whatever the provider would answer. *)
Theorem search_count_must_be_a_number
    (W : World) (query num_results : pyval) (vars : list (str * str))
    (api_key : str) :
  vars ≠ [] →
  key_present (variables_get vars SERPER_API_KEY) = Some api_key →
  is_number num_results = false →
  google_search_any W query num_results (Some vars)
  = Ok (search_error
          (Exn TypeError
             (u "'<' not supported between instances of 'int' and '"
              ++ type_name num_results ++ u "'"))).
Proof.
  intros Hvars Hkey Hnum.
  unfold google_search_any, google_search_body_any.
  destruct vars as [|v vars]; [done|]. rewrite Hkey.
  unfold py_min, exceeds.
  destruct num_results; first [discriminate Hnum | reflexivity].
Qed.

End Dispatcher.

(** * Further scenarios *)

Section FurtherScenarios.
Import Scenario Cases Main SearchHandler Dispatch.

(** A turn in a world without network. *)
Lemma offline_turn_ends_in_error :
  let data := turn (u "paella") credentials in
  let e := Exn APIError (u "Connection error.") in
  variables_get (variables data) OPENAI_API_KEY = Some (u "sk-test")
  ∧ u "sk-test" ≠ []
  ∧ (lower (strip (message data)) ∉ greetings)
  ∧ first_choice offline data = Raise e
  ∧ (process_message offline data ∅).2
    = opening_events data
      ++ [SendError (u "Error processing message: " ++ exn_str e)].
Proof.
  cbv zeta.
  assert (variables_get (variables (turn (u "paella") credentials)) OPENAI_API_KEY
          = Some (u "sk-test")) as Hkey by (vm_compute; reflexivity).
  assert (u "sk-test" ≠ []) as Hne by (vm_compute; discriminate).
  assert (lower (strip (message (turn (u "paella") credentials))) ∉ greetings)
    as Hgreet by (apply (bool_decide_unpack _); vm_compute; exact I).
  assert (first_choice offline (turn (u "paella") credentials)
          = Raise (Exn APIError (u "Connection error."))) as Hmodel
    by (vm_compute; reflexivity).
  split_and!; [exact Hkey|exact Hne|exact Hgreet|exact Hmodel|].
  exact (model_failure_ends_in_error offline _ ∅ _ _ Hkey Hne Hgreet Hmodel).
Defined.

(** The model answers with prose that holds no array. *)
Lemma prose_answer_ends_gracefully :
  let data := turn (u "paella") credentials in
  let content := Some (u "Lo siento, no puedo ayudar") in
  let W := answering content (Ok tt) in
  variables_get (variables data) OPENAI_API_KEY = Some (u "sk-test")
  ∧ u "sk-test" ≠ []
  ∧ (lower (strip (message data)) ∉ greetings)
  ∧ first_choice W data = Ok content
  ∧ _extract_json_array (raw_content content) = Ok (PList [])
  ∧ normalize (PList []) = []
  ∧ (process_message W data ∅).2
    = opening_events data
      ++ [StreamChunk no_ingredients_msg; CompleteResponse no_ingredients_msg].
Proof.
  cbv zeta.
  assert (variables_get (variables (turn (u "paella") credentials)) OPENAI_API_KEY
          = Some (u "sk-test")) as Hkey by (vm_compute; reflexivity).
  assert (u "sk-test" ≠ []) as Hne by (vm_compute; discriminate).
  assert (lower (strip (message (turn (u "paella") credentials))) ∉ greetings)
    as Hgreet by (apply (bool_decide_unpack _); vm_compute; exact I).
  assert (first_choice (answering (Some (u "Lo siento, no puedo ayudar")) (Ok tt))
            (turn (u "paella") credentials)
          = Ok (Some (u "Lo siento, no puedo ayudar"))) as Hmodel
    by (vm_compute; reflexivity).
  assert (_extract_json_array (raw_content (Some (u "Lo siento, no puedo ayudar")))
          = Ok (PList [])) as Harray by (vm_compute; reflexivity).
  assert (normalize (PList []) = []) as Hnone by (vm_compute; reflexivity).
  split_and!; [exact Hkey|exact Hne|exact Hgreet|exact Hmodel|exact Harray
              |exact Hnone|].
  exact (no_items_ends_gracefully _ _ ∅ _ _ _ Hkey Hne Hgreet Hmodel Harray Hnone).
Defined.

(** The model names two items and the file system is read-only. *)
Lemma read_only_turn_ends_in_error :
  let data := turn (u "huevos con sal") credentials in
  let content := Some (dq (u "['huevos', 'sal']")) in
  let e := Exn OSError (u "Read-only file system") in
  let W := answering content (Raise e) in
  let ingredients := PList [PStr (u "huevos"); PStr (u "sal")] in
  variables_get (variables data) OPENAI_API_KEY = Some (u "sk-test")
  ∧ u "sk-test" ≠ []
  ∧ (lower (strip (message data)) ∉ greetings)
  ∧ first_choice W data = Ok content
  ∧ _extract_json_array (raw_content content) = Ok ingredients
  ∧ normalize ingredients ≠ []
  ∧ write_text_file W (u "/tmp/ingredients.txt")
      (ingredients_file (normalize ingredients)) = Raise e
  ∧ (process_message W data ∅).2
    = opening_events data
      ++ [FileWrite (u "/tmp/ingredients.txt")
            (ingredients_file (normalize ingredients));
          SendError (u "Error processing message: " ++ exn_str e)].
Proof.
  cbv zeta.
  assert (variables_get (variables (turn (u "huevos con sal") credentials))
            OPENAI_API_KEY
          = Some (u "sk-test")) as Hkey by (vm_compute; reflexivity).
  assert (u "sk-test" ≠ []) as Hne by (vm_compute; discriminate).
  assert (lower (strip (message (turn (u "huevos con sal") credentials)))
          ∉ greetings)
    as Hgreet by (apply (bool_decide_unpack _); vm_compute; exact I).
  assert (first_choice
            (answering (Some (dq (u "['huevos', 'sal']")))
               (Raise (Exn OSError (u "Read-only file system"))))
            (turn (u "huevos con sal") credentials)
          = Ok (Some (dq (u "['huevos', 'sal']")))) as Hmodel
    by (vm_compute; reflexivity).
  assert (_extract_json_array (raw_content (Some (dq (u "['huevos', 'sal']"))))
          = Ok (PList [PStr (u "huevos"); PStr (u "sal")])) as Harray
    by (vm_compute; reflexivity).
  assert (normalize (PList [PStr (u "huevos"); PStr (u "sal")]) ≠ []) as Hsome
    by (vm_compute; discriminate).
  split_and!; [exact Hkey|exact Hne|exact Hgreet|exact Hmodel|exact Harray
              |exact Hsome|reflexivity|].
  exact (file_failure_ends_in_error _ _ ∅ _ _ _ _ Hkey Hne Hgreet Hmodel Harray
           Hsome eq_refl).
Defined.

(** The tortilla turn from the message to the completion. *)
Lemma tortilla_turn_trace :
  let data := turn (u "quiero hacer tortilla de patata") credentials in
  let content :=
    Some (dq (u "['huevos','patatas','cebolla','aceite de oliva','sal']")) in
  let ingredients := PList (PStr <$> tortilla_items) in
  let normalized := normalize ingredients in
  variables_get (variables data) OPENAI_API_KEY = Some (u "sk-test")
  ∧ u "sk-test" ≠ []
  ∧ (lower (strip (message data)) ∉ greetings)
  ∧ first_choice tortilla_world data = Ok content
  ∧ _extract_json_array (raw_content content) = Ok ingredients
  ∧ normalized ≠ []
  ∧ write_text_file tortilla_world (u "/tmp/ingredients.txt")
      (ingredients_file normalized) = Ok tt
  ∧ (process_message tortilla_world data ∅).2
    = opening_events data
      ++ FileWrite (u "/tmp/ingredients.txt") (ingredients_file normalized)
      :: listing_events normalized
      ++ concat (map (item_events tortilla_world data) normalized)
      ++ [CompleteResponse
            (join nl (response_lines tortilla_world data normalized))].
Proof.
  cbv zeta.
  assert (variables_get
            (variables (turn (u "quiero hacer tortilla de patata") credentials))
            OPENAI_API_KEY
          = Some (u "sk-test")) as Hkey by (vm_compute; reflexivity).
  assert (u "sk-test" ≠ []) as Hne by (vm_compute; discriminate).
  assert (lower (strip (message
                          (turn (u "quiero hacer tortilla de patata") credentials)))
          ∉ greetings)
    as Hgreet by (apply (bool_decide_unpack _); vm_compute; exact I).
  assert (first_choice tortilla_world
            (turn (u "quiero hacer tortilla de patata") credentials)
          = Ok (Some (dq (u "['huevos','patatas','cebolla','aceite de oliva','sal']"))))
    as Hmodel by (vm_compute; reflexivity).
  assert (_extract_json_array
            (raw_content
               (Some (dq (u "['huevos','patatas','cebolla','aceite de oliva','sal']"))))
          = Ok (PList (PStr <$> tortilla_items))) as Harray
    by (vm_compute; reflexivity).
  assert (normalize (PList (PStr <$> tortilla_items)) ≠ []) as Hsome
    by (vm_compute; discriminate).
  split_and!; [exact Hkey|exact Hne|exact Hgreet|exact Hmodel|exact Harray
              |exact Hsome|reflexivity|].
  exact (successful_turn_trace _ _ ∅ _ _ _ Hkey Hne Hgreet Hmodel Harray
           Hsome eq_refl).
Defined.

(** The tortilla items with the model key alone. *)
Lemma search_key_missing_for_tortilla :
  let data := turn (u "quiero hacer tortilla de patata") model_key_only in
  key_present (variables_get (variables data) SERPER_API_KEY) = None
  ∧ (∀ ing,
       serper_first_link tortilla_world (carrefour_query ing) (variables data)
       = Raise missing_serper_key)
  ∧ ∃ st',
      carrefour_flow tortilla_world data tortilla_items ∅
      = (Ok tt, st',
         concat (map not_found_events tortilla_items)
         ++ [CompleteResponse
               (final_response tortilla_items
                  (results_header
                   :: map (fun ing => u "- " ++ ing ++ u ": " ++ not_found)
                        tortilla_items))]).
Proof.
  cbv zeta.
  assert (key_present
            (variables_get
               (variables (turn (u "quiero hacer tortilla de patata") model_key_only))
               SERPER_API_KEY) = None) as Hkey by (vm_compute; reflexivity).
  split; [exact Hkey|].
  exact (missing_search_key_reports_not_found tortilla_world _ tortilla_items ∅ Hkey).
Defined.

(** Three results, of which two are asked for. *)
Lemma two_of_three_results :
  let d := [(u "organic", PList (PDict <$> three_results))] in
  credentials ≠ []
  ∧ key_present (variables_get credentials SERPER_API_KEY) = Some (u "serper-test")
  ∧ http_post_json results_world (u "https://google.serper.dev/search")
      (u "serper-test") (search_payload (u "paella") 2) = Ok (PDict d)
  ∧ google_search results_world (u "paella") 2 (Some credentials)
    = Ok (search_header (u "paella")
          ++ join nl
               [u "1. **Paella valenciana**" ++ nl
                ++ u "   Arroz, pollo y judías" ++ nl
                ++ u "   [Link](https://example.org/paella)" ++ nl;
                u "2. **Paella de marisco**" ++ nl
                ++ u "   No description available" ++ nl
                ++ u "   [Link]()" ++ nl]).
Proof.
  cbv zeta.
  assert (credentials ≠ []) as Hvars by discriminate.
  assert (key_present (variables_get credentials SERPER_API_KEY)
          = Some (u "serper-test")) as Hkey by (vm_compute; reflexivity).
  split_and!; [exact Hvars|exact Hkey|reflexivity|].
  destruct (google_search_lists_results results_world (u "paella") (u "serper-test")
              2 credentials [(u "organic", PList (PDict <$> three_results))]
              Hvars Hkey eq_refl) as (_ & Hlist & _).
  assert (assoc [(u "organic", PList (PDict <$> three_results))] (u "organic")
          = Some (PList (PDict <$> three_results))) as Horganic
    by (vm_compute; reflexivity).
  rewrite (Hlist three_results Horganic). vm_compute. reflexivity.
Defined.

(** Two dishes, three attempts each: two images for the first dish and
    none for the second. *)
Lemma two_dish_gallery :
  let items := _parse_menu_items two_dishes in
  let times := Z.to_nat (Z.max 1 (Z.min 3 3)) in
  items ≠ []
  ∧ write_text_file (gallery_worlds 0 0) (u "/tmp/menu.txt") (menu_file items) = Ok tt
  ∧ build_menu_gallery gallery_worlds (PStr two_dishes) credentials (PInt 3) ∅
    = (Ok (join nl
             (gallery_header items
              :: concat (imap (fun j item =>
                                 gallery_item_entries gallery_worlds credentials
                                   times (S j) item)
                           items))),
       ∅,
       FileWrite (u "/tmp/menu.txt") (menu_file items)
       :: StreamChunk (nl ++ u "🗂️ Saved menu items to menu.txt ("
                       ++ str_of_nat (len items) ++ u " items)")
       :: concat (imap (fun j item =>
                          gallery_item_events gallery_worlds credentials
                            times (S j) item)
                    items)).
Proof.
  cbv zeta.
  assert (_parse_menu_items two_dishes ≠ []) as Hitems
    by (vm_compute; discriminate).
  split_and!; [exact Hitems|reflexivity|].
  exact (gallery_summary_and_trace gallery_worlds two_dishes credentials 3 ∅
           Hitems eq_refl).
Defined.

(** Two dishes and 2.5 images per item. *)
Lemma two_and_a_half_images :
  float_gt two_and_a_half 3 = false
  ∧ float_gt two_and_a_half 1 = true
  ∧ _parse_menu_items two_dishes = [u "Paella"; u "Gazpacho"]
  ∧ write_text_file (gallery_worlds 0 0) (u "/tmp/menu.txt")
      (menu_file [u "Paella"; u "Gazpacho"]) = Ok tt
  ∧ clamp_results_per_item (PFloat two_and_a_half) = Ok (PFloat two_and_a_half)
  ∧ build_menu_gallery gallery_worlds (PStr two_dishes) credentials
      (PFloat two_and_a_half) ∅
    = (Raise (Exn TypeError
                (u "'float' object cannot be interpreted as an integer")),
       ∅,
       [FileWrite (u "/tmp/menu.txt") (menu_file [u "Paella"; u "Gazpacho"]);
        StreamChunk (nl ++ u "🗂️ Saved menu items to menu.txt ("
                     ++ str_of_nat (len [u "Paella"; u "Gazpacho"]) ++ u " items)");
        StreamChunk (nl ++ str_of_nat 1 ++ u ". " ++ u "Paella")]).
Proof.
  assert (_parse_menu_items two_dishes = [u "Paella"; u "Gazpacho"]) as Hitems
    by (vm_compute; reflexivity).
  split_and!; [reflexivity|reflexivity|exact Hitems|reflexivity|..];
    apply (fractional_results_per_item_raises gallery_worlds two_dishes credentials
             two_and_a_half ∅ (u "Paella") [u "Gazpacho"]
             eq_refl eq_refl Hitems eq_refl).
Defined.

(** A call of a function that does not exist. *)
Lemma translate_is_unknown :
  let function_call := function_call_of (u "translate") (u "{}") in
  let name := PStr (u "translate") in
  function_field function_call (u "name") = Ok name
  ∧ is_str name (u "google_search") = false
  ∧ is_str name (u "build_menu_gallery") = false
  ∧ execute_function_call (fun _ _ => offline) function_call
      (turn (u "hola") credentials) ∅
    = (Ok (function_error (u "Unknown function: " ++ py_str name)), ∅,
       [processing_chunk name]).
Proof.
  cbv zeta.
  assert (function_field (function_call_of (u "translate") (u "{}")) (u "name")
          = Ok (PStr (u "translate"))) as Hname by (vm_compute; reflexivity).
  assert (is_str (PStr (u "translate")) (u "google_search") = false) as Hg
    by (vm_compute; reflexivity).
  assert (is_str (PStr (u "translate")) (u "build_menu_gallery") = false) as Hb
    by (vm_compute; reflexivity).
  split_and!; [exact Hname|exact Hg|exact Hb|].
  exact (unknown_function_is_reported _ _ _ ∅ _ Hname Hg Hb).
Defined.

(** A search whose arguments are a JSON array. *)
Lemma array_arguments_are_reported :
  let function_call := function_call_of (u "google_search") (dq (u "['paella']")) in
  let name := PStr (u "google_search") in
  let e := Exn AttributeError (u "'list' object has no attribute 'get'") in
  function_field function_call (u "name") = Ok name
  ∧ is_str name (u "google_search") || is_str name (u "build_menu_gallery") = true
  ∧ decoded_arguments function_call = Raise e
  ∧ execute_function_call (fun _ _ => results_world) function_call
      (turn (u "hola") credentials) ∅
    = (Ok (execution_error_text name e), ∅, [processing_chunk name]).
Proof.
  cbv zeta.
  assert (function_field
            (function_call_of (u "google_search") (dq (u "['paella']"))) (u "name")
          = Ok (PStr (u "google_search"))) as Hname by (vm_compute; reflexivity).
  assert (is_str (PStr (u "google_search")) (u "google_search")
          || is_str (PStr (u "google_search")) (u "build_menu_gallery") = true)
    as Hknown by (vm_compute; reflexivity).
  assert (decoded_arguments
            (function_call_of (u "google_search") (dq (u "['paella']")))
          = Raise (Exn AttributeError (u "'list' object has no attribute 'get'")))
    as Hdec by (vm_compute; reflexivity).
  split_and!; [exact Hname|exact Hknown|exact Hdec|].
  exact (unreadable_arguments_are_reported _ _ _ ∅ _ _ Hname Hknown Hdec).
Defined.

(** A gallery call with empty arguments. *)
Lemma gallery_without_menu_text :
  let function_call := function_call_of (u "build_menu_gallery") (u "{}") in
  function_field function_call (u "name") = Ok (PStr (u "build_menu_gallery"))
  ∧ decoded_arguments function_call = Ok []
  ∧ truthy (argument [] (u "menu_text") (PStr [])) = false
  ∧ execute_function_call gallery_worlds function_call
      (turn (u "hola") credentials) ∅
    = (Ok (function_error (u "menu_text is required for build_menu_gallery")), ∅,
       [processing_chunk (PStr (u "build_menu_gallery"))]).
Proof.
  cbv zeta.
  assert (function_field (function_call_of (u "build_menu_gallery") (u "{}"))
            (u "name")
          = Ok (PStr (u "build_menu_gallery"))) as Hname by (vm_compute; reflexivity).
  assert (decoded_arguments (function_call_of (u "build_menu_gallery") (u "{}"))
          = Ok []) as Hdec by (vm_compute; reflexivity).
  split_and!; [exact Hname|exact Hdec|reflexivity|].
  exact (gallery_requires_menu_text _ _ _ ∅ _ Hname Hdec eq_refl).
Defined.

(** A search for paella with two results asked for. *)
Lemma paella_search_call :
  let function_call :=
    function_call_of (u "google_search")
      (dq (u "{'query': 'paella', 'num_results': 2}")) in
  let d := [(u "query", PStr (u "paella")); (u "num_results", PInt 2)] in
  let data := turn (u "hola") credentials in
  let query := argument d (u "query") PNone in
  let num_results := argument d (u "num_results") (PInt 5) in
  function_field function_call (u "name") = Ok (PStr (u "google_search"))
  ∧ decoded_arguments function_call = Ok d
  ∧ ∃ result,
      google_search_any results_world query num_results (Some (variables data))
      = Ok result
      ∧ execute_function_call (fun _ _ => results_world) function_call data ∅
        = (Ok result, ∅,
           [processing_chunk (PStr (u "google_search"));
            StreamChunk (nl ++ u "🔍 **Searching Google for:** " ++ py_str query);
            StreamChunk result]).
Proof.
  cbv zeta.
  assert (function_field
            (function_call_of (u "google_search")
               (dq (u "{'query': 'paella', 'num_results': 2}"))) (u "name")
          = Ok (PStr (u "google_search"))) as Hname by (vm_compute; reflexivity).
  assert (decoded_arguments
            (function_call_of (u "google_search")
               (dq (u "{'query': 'paella', 'num_results': 2}")))
          = Ok [(u "query", PStr (u "paella")); (u "num_results", PInt 2)])
    as Hdec by (vm_compute; reflexivity).
  split_and!; [exact Hname|exact Hdec|].
  exact (search_call_streams_its_result (fun _ _ => results_world) _
           (turn (u "hola") credentials) ∅ _ Hname Hdec).
Defined.

(** A gallery call for one dish with two images asked for. *)
Lemma paella_gallery_call :
  let function_call :=
    function_call_of (u "build_menu_gallery")
      (dq (u "{'menu_text': 'Paella', 'results_per_item': 2}")) in
  let d := [(u "menu_text", PStr (u "Paella")); (u "results_per_item", PInt 2)] in
  let data := turn (u "hola") credentials in
  let name := PStr (u "build_menu_gallery") in
  let gallery :=
    build_menu_gallery gallery_worlds (argument d (u "menu_text") (PStr []))
      (variables data) (argument d (u "results_per_item") (PInt 1)) ∅ in
  let opening :=
    [processing_chunk name; StreamChunk (nl ++ u "📋 **Building menu gallery**")] in
  function_field function_call (u "name") = Ok name
  ∧ decoded_arguments function_call = Ok d
  ∧ truthy (argument d (u "menu_text") (PStr [])) = true
  ∧ execute_function_call gallery_worlds function_call data ∅
    = match gallery.1.1 with
      | Ok summary =>
        (Ok summary, ∅,
         opening ++ gallery.2
         ++ [StreamChunk (nl ++ u "✅ **Menu gallery built**" ++ nl ++ summary)])
      | Raise e => (Ok (execution_error_text name e), ∅, opening ++ gallery.2)
      end.
Proof.
  cbv zeta.
  assert (function_field
            (function_call_of (u "build_menu_gallery")
               (dq (u "{'menu_text': 'Paella', 'results_per_item': 2}"))) (u "name")
          = Ok (PStr (u "build_menu_gallery"))) as Hname
    by (vm_compute; reflexivity).
  assert (decoded_arguments
            (function_call_of (u "build_menu_gallery")
               (dq (u "{'menu_text': 'Paella', 'results_per_item': 2}")))
          = Ok [(u "menu_text", PStr (u "Paella")); (u "results_per_item", PInt 2)])
    as Hdec by (vm_compute; reflexivity).
  assert (truthy (argument [(u "menu_text", PStr (u "Paella"));
                            (u "results_per_item", PInt 2)]
                    (u "menu_text") (PStr [])) = true) as Hmenu
    by (vm_compute; reflexivity).
  split_and!; [exact Hname|exact Hdec|exact Hmenu|].
  exact (gallery_call_runs_the_gallery gallery_worlds _
           (turn (u "hola") credentials) ∅ _ Hname Hdec Hmenu).
Defined.

(** A search whose count is the text [5]. *)
Lemma search_with_text_count :
  credentials ≠ []
  ∧ key_present (variables_get credentials SERPER_API_KEY) = Some (u "serper-test")
  ∧ is_number (PStr (u "5")) = false
  ∧ google_search_any results_world (PStr (u "paella")) (PStr (u "5"))
      (Some credentials)
    = Ok (search_error
            (Exn TypeError
               (u "'<' not supported between instances of 'int' and '"
                ++ type_name (PStr (u "5")) ++ u "'"))).
Proof.
  assert (credentials ≠ []) as Hvars by discriminate.
  assert (key_present (variables_get credentials SERPER_API_KEY)
          = Some (u "serper-test")) as Hkey by (vm_compute; reflexivity).
  split_and!; [exact Hvars|exact Hkey|reflexivity|].
  exact (search_count_must_be_a_number results_world (PStr (u "paella"))
           (PStr (u "5")) _ _ Hvars Hkey eq_refl).
Defined.

End FurtherScenarios.
